(** * Composite keys and balance aggregation of the token SDK

    A shallow embedding of
    - [token/services/network/common/rws/keys/keys.go] (package [keys]):
      the composite-key codec and the catalog of key constructors;
    - [integration/token/fungible/views/balance.go] (package [views]):
      the balance view that sums the unspent tokens of a wallet.

    Go strings are byte strings: they are modelled by [string], whose
    characters ([ascii]) are the 256 byte values.  A Go [error] is an
    [option]: [None] is the nil error. *)

From Stdlib Require Import String Ascii List NArith Arith Bool Lia.
From Stdlib Require Import DecimalString DecimalN DecimalPos Permutation.
Import ListNotations.
Open Scope string_scope.

(** ** Byte strings *)

Module GoString.

(** The value of a byte. *)
Definition byte (c : ascii) : N := N_of_ascii c.

(** [s[i]]; the uses below are guarded by a length test, so the value
    out of range (where Go panics) is never looked at. *)
Definition at_ (s : string) (i : nat) : N :=
  match get i s with
  | Some c => byte c
  | None => 0%N
  end.

(** [s[lo:hi]] for [lo <= hi <= len(s)]. *)
Definition slice (s : string) (lo hi : nat) : string :=
  substring lo (hi - lo) s.

(** [s[n:]]. *)
Fixpoint drop (n : nat) (s : string) : string :=
  match n, s with
  | O, _ => s
  | S _, EmptyString => EmptyString
  | S n', String _ t => drop n' t
  end.

(** [s[:n]]. *)
Fixpoint take (n : nat) (s : string) : string :=
  match n, s with
  | O, _ => EmptyString
  | S _, EmptyString => EmptyString
  | S n', String c t => String c (take n' t)
  end.

(** The one-byte string whose byte is zero. *)
Definition NUL : string := String zero EmptyString.

(** No byte of the string is zero. *)
Fixpoint nozero (s : string) : Prop :=
  match s with
  | EmptyString => True
  | String c t => c <> zero /\ nozero t
  end.

(** Every byte of the string is an ASCII character other than NUL. *)
Fixpoint plain (s : string) : Prop :=
  match s with
  | EmptyString => True
  | String c t => (0 < byte c < 0x80)%N /\ plain t
  end.

End GoString.

(** ** Package [unicode/utf8] of the Go library

    [DecodeRuneInString] follows the library's function with its tables
    [first] and [acceptRanges]; a rune is a natural number. *)

Module utf8.
Import GoString.
Local Open Scope N_scope.

Definition RuneError : N := 0xFFFD.
Definition RuneSelf : N := 0x80.
Definition MaxRune : N := 0x10FFFF.

Definition maskx : N := 0x3F.
Definition mask2 : N := 0x1F.
Definition mask3 : N := 0x0F.
Definition mask4 : N := 0x07.

Definition locb : N := 0x80.
Definition hicb : N := 0xBF.

(** The entries of the table [first]: the low three bits are the size
    of the encoding, the high four bits index [acceptRanges]. *)
Definition xx : N := 0xF1.
Definition as_ : N := 0xF0.
Definition s1 : N := 0x02.
Definition s2 : N := 0x13.
Definition s3 : N := 0x03.
Definition s4 : N := 0x23.
Definition s5 : N := 0x34.
Definition s6 : N := 0x04.
Definition s7 : N := 0x44.

Definition first (b : N) : N :=
  if b <? 0x80 then as_
  else if b <? 0xC2 then xx
  else if b <? 0xE0 then s1
  else if b =? 0xE0 then s2
  else if b <? 0xED then s3
  else if b =? 0xED then s4
  else if b <? 0xF0 then s3
  else if b =? 0xF0 then s5
  else if b <? 0xF4 then s6
  else if b =? 0xF4 then s7
  else xx.

Definition acceptRanges (i : N) : N * N :=
  match i with
  | 0 => (locb, hicb)
  | 1 => (0xA0, hicb)
  | 2 => (locb, 0x9F)
  | 3 => (0x90, hicb)
  | 4 => (locb, 0x8F)
  | _ => (0, 0)
  end.

(** [DecodeRuneInString(s)]: the first rune of [s] and its width in
    bytes; [(RuneError, 0)] on the empty string and [(RuneError, 1)] on
    an invalid encoding. *)
Definition DecodeRuneInString (s : string) : N * nat :=
  let n := String.length s in
  if (n <? 1)%nat then (RuneError, O)
  else
    let s0 := at_ s 0 in
    let x := first s0 in
    if as_ <=? x then
      ((if N.testbit x 0 then RuneError else s0), 1%nat)
    else
      let sz := N.to_nat (N.land x 7) in
      let accept := acceptRanges (N.shiftr x 4) in
      if (n <? sz)%nat then (RuneError, 1%nat)
      else
        let s1 := at_ s 1 in
        if (s1 <? fst accept) || (snd accept <? s1) then (RuneError, 1%nat)
        else if (sz <=? 2)%nat then
          (N.lor (N.shiftl (N.land s0 mask2) 6) (N.land s1 maskx), 2%nat)
        else
          let s2 := at_ s 2 in
          if (s2 <? locb) || (hicb <? s2) then (RuneError, 1%nat)
          else if (sz <=? 3)%nat then
            (N.lor (N.lor (N.shiftl (N.land s0 mask3) 12)
                          (N.shiftl (N.land s1 maskx) 6))
                   (N.land s2 maskx), 3%nat)
          else
            let s3 := at_ s 3 in
            if (s3 <? locb) || (hicb <? s3) then (RuneError, 1%nat)
            else
              (N.lor (N.lor (N.lor (N.shiftl (N.land s0 mask4) 18)
                                   (N.shiftl (N.land s1 maskx) 12))
                            (N.shiftl (N.land s2 maskx) 6))
                     (N.land s3 maskx), 4%nat).

(** The iteration [for index, runeValue := range s] of the language:
    the runes of [s] with the byte offset each one starts at; an
    invalid byte gives [RuneError] and advances by one byte.  The
    string is consumed in at most [length s] steps, which is the fuel
    [range] gives. *)
Fixpoint range_from (fuel : nat) (s : string) (index : nat)
  : list (nat * N) :=
  match fuel with
  | O => []
  | S fuel' =>
      match s with
      | EmptyString => []
      | String _ _ =>
          let (r, size) := DecodeRuneInString s in
          (index, r) :: range_from fuel' (drop size s) (index + size)
      end
  end.

Definition range (s : string) : list (nat * N) :=
  range_from (String.length s) s 0.

(** [ValidString(s)]: [s] consists entirely of valid encodings, that
    is, no decoding step answers [(RuneError, 1)]. *)
Fixpoint valid_from (fuel : nat) (s : string) : bool :=
  match fuel with
  | O => true
  | S fuel' =>
      match s with
      | EmptyString => true
      | String _ _ =>
          let (r, size) := DecodeRuneInString s in
          if (r =? RuneError) && (size =? 1)%nat then false
          else valid_from fuel' (drop size s)
      end
  end.

Definition ValidString (s : string) : bool :=
  valid_from (String.length s) s.

End utf8.

(** ** Package [strconv] of the Go library *)

Module strconv.

(** [FormatUint(i, 10)]: the decimal digits of [i], most significant
    first, ["0"] for zero. *)
Definition FormatUint10 (i : N) : string :=
  NilZero.string_of_uint (N.to_uint i).

(** Every byte of the string is one of the digits ["0"] to ["9"]. *)
Fixpoint digits_only (s : string) : Prop :=
  match s with
  | EmptyString => True
  | String c t => (0x30 <= N_of_ascii c <= 0x39)%N /\ digits_only t
  end.

End strconv.

(** ** Package [github.com/pkg/errors] *)

Module errors.

(** The messages of package [keys], one constructor per format string,
    with the arguments it is formatted with. *)
Inductive message : Type :=
| NotEnoughComponents (compositeKey : string) (found : nat)
                      (components : list string)
| NotValidUTF8 (str : string)
| ForbiddenRune (runeValue : N) (index : nat)
| FailedToSplit (k : string)
| ShouldContainTwo (k : string) (got : nat)
| NoTokenKeyPrefix (k : string)
| NoTransferActionMetadataPrefix (k : string).

Inductive err : Type :=
| New (m : message)
| Wrap (cause : err) (m : message).

(** A Go [error] value; [None] is nil. *)
Definition error : Type := option err.

(** [errors.Errorf] always answers an error. *)
Definition Errorf (m : message) : error := Some (New m).

(** [errors.Wrapf(err, ...)] annotates [err]; it answers nil when
    [err] is nil. *)
Definition Wrapf (e : error) (m : message) : error :=
  match e with
  | None => None
  | Some c => Some (Wrap c m)
  end.

End errors.

(** ** Package [keys] *)

Module keys.
Import GoString errors.
Local Open Scope nat_scope.

Definition minUnicodeRuneValue : N := 0.
Definition compositeKeyNamespace : string := NUL.
Definition MaxUnicodeRuneValue : N := utf8.MaxRune.

Definition numComponentsInKey : nat := 2.

Definition TokenKeyPrefix : string := "ztoken".
Definition TokenSetupKeyPrefix : string := "setup".
Definition TokenSetupHashKeyPrefix : string := "setup.hash".

Definition TokenRequestKeyPrefix : string := "token_request".
Definition SerialNumber : string := "sn".
Definition IssueActionMetadata : string := "iam".
Definition TransferActionMetadata : string := "tam".

(** [string(rune(minUnicodeRuneValue))]: the encoding of U+0000, one
    zero byte. *)
Definition delimiter : string := NUL.

(** The loop of [SplitCompositeKey], [n] iterations left to run at
    most; it stops when [i < len(compositeKey)] fails. *)
Fixpoint split_loop (n : nat) (compositeKey : string)
         (i componentIndex : nat) (components : list string)
  : list string :=
  match n with
  | O => components
  | S n' =>
      if i <? String.length compositeKey then
        if (at_ compositeKey i =? minUnicodeRuneValue)%N then
          split_loop n' compositeKey (i + 1) (i + 1)
                     (components ++ [slice compositeKey componentIndex i])%list
        else
          split_loop n' compositeKey (i + 1) componentIndex components
      else components
  end.

Definition SplitCompositeKey (compositeKey : string)
  : string * list string * error :=
  let components :=
    split_loop (String.length compositeKey) compositeKey 1 1 [] in
  if length components <? numComponentsInKey + 1 then
    ("", [], Errorf (NotEnoughComponents compositeKey
                                         (length components) components))
  else
    (hd "" components, tl components, None).

(** The loop of [ValidateCompositeKeyAttribute] over the runes of the
    string. *)
Fixpoint validate_loop (runes : list (nat * N)) : error :=
  match runes with
  | [] => None
  | (index, runeValue) :: rest =>
      if (runeValue =? minUnicodeRuneValue)%N
         || (runeValue =? MaxUnicodeRuneValue)%N
      then Errorf (ForbiddenRune runeValue index)
      else validate_loop rest
  end.

Definition ValidateCompositeKeyAttribute (str : string) : error :=
  if negb (utf8.ValidString str) then Errorf (NotValidUTF8 str)
  else validate_loop (utf8.range str).

(** The loop of [CreateCompositeKey] over the attributes. *)
Fixpoint create_loop (attributes : list string) (ck : string)
  : string * error :=
  match attributes with
  | [] => (ck, None)
  | att :: rest =>
      match ValidateCompositeKeyAttribute att with
      | Some e => ("", Some e)
      | None => create_loop rest (ck ++ att ++ delimiter)
      end
  end.

Definition CreateCompositeKey (objectType : string)
           (attributes : list string) : string * error :=
  match ValidateCompositeKeyAttribute objectType with
  | Some e => ("", Some e)
  | None =>
      create_loop attributes
                  (compositeKeyNamespace ++ objectType ++ delimiter)
  end.

Definition CreateTokenKey (txID : string) (index : N) : string * error :=
  CreateCompositeKey TokenKeyPrefix [txID; strconv.FormatUint10 index].

Definition CreateSNKey (sn : string) : string * error :=
  CreateCompositeKey TokenKeyPrefix [SerialNumber; sn].

Definition CreateSetupKey : string * error :=
  CreateCompositeKey TokenKeyPrefix [TokenSetupKeyPrefix].

Definition CreateSetupHashKey : string * error :=
  CreateCompositeKey TokenKeyPrefix [TokenSetupHashKeyPrefix].

Definition CreateTokenRequestKey (txID : string) : string * error :=
  CreateCompositeKey TokenKeyPrefix [TokenRequestKeyPrefix; txID].

Definition CreateIssueActionMetadataKey (hash : string) : string * error :=
  CreateCompositeKey TokenKeyPrefix [IssueActionMetadata; hash].

Definition CreateTransferActionMetadataKey (subKey : string)
  : string * error :=
  CreateCompositeKey TokenKeyPrefix [TransferActionMetadata; subKey].

Definition GetTransferMetadataSubKey (k : string) : string * error :=
  let '(prefix, components, e) := SplitCompositeKey k in
  match e with
  | Some _ => ("", Wrapf e (FailedToSplit k))
  | None =>
      if negb (length components =? 2) then
        ("", Wrapf e (ShouldContainTwo k (length components)))
      else if negb (prefix =? TokenKeyPrefix)%string then
        ("", Errorf (NoTokenKeyPrefix k))
      else if negb (nth 0 components "" =? TransferActionMetadata)%string
      then
        ("", Errorf (NoTransferActionMetadataPrefix k))
      else
        (nth 1 components "", None)
  end.

End keys.

(** ** Package [token/token]: quantities

    The balance view uses the package through [NewZeroQuantity],
    [ToQuantity], [Add] and [Decimal]; the definitions marked as modelled
    follow the written specification of the quantity type. *)

Module token2.

(** The errors the view answers: one built by [fmt.Errorf], or the
    invalid quantity of the specification. *)
Inductive error : Type :=
| Errorf (format : string) (args : list string)
| InvalidQuantity (text : string) (reason : string).

(** A Go result [(value, error)] with exactly one of them set. *)
Inductive result (A : Type) : Type :=
| Ok (a : A)
| Err (e : error).
Arguments Ok {A} a.
Arguments Err {A} e.

(** Modelled from the spec: the record [token2.UnspentToken] (its
    declaration is missing), "each exposing a decimal-text quantity",
    with the type label the enumeration is filtered on. *)
Record UnspentToken : Type := {
  Type_ : string;
  Quantity : string
}.

Local Open Scope N_scope.

(** Modelled from the spec: the type [Quantity] (missing), "precision
    [P] (fractional digit count) + non-negative exact magnitude scaled
    by 10^-P". *)
Record FixedQuantity : Type := {
  precision : N;
  magnitude : N
}.

(** Modelled from the spec: [NewZeroQuantity] (missing), "[Zero(precision)]
    returns the additive identity at that precision". *)
Definition NewZeroQuantity (precision : N) : FixedQuantity :=
  {| precision := precision; magnitude := 0 |}.

Definition is_digit (c : ascii) : bool :=
  (48 <=? N_of_ascii c) && (N_of_ascii c <=? 57).

(** The value of a non-empty string of decimal digits. *)
Fixpoint digits_from (acc : N) (s : string) : option N :=
  match s with
  | EmptyString => Some acc
  | String c t =>
      if is_digit c then digits_from (10 * acc + (N_of_ascii c - 48)) t
      else None
  end.

Definition digits_value (s : string) : option N :=
  match s with
  | EmptyString => None
  | String _ _ => digits_from 0 s
  end.

(** The text before the first ["."], and the text after it when there
    is one. *)
Fixpoint split_dot (s : string) : string * option string :=
  match s with
  | EmptyString => (EmptyString, None)
  | String c t =>
      if (N_of_ascii c =? 46) then (EmptyString, Some t)
      else let (i, f) := split_dot t in (String c i, f)
  end.

(** Modelled from the spec: [ToQuantity] (missing), "[Parse(text,
    precision)] parses decimal text into an exact magnitude scaled to
    [precision]; fails with [InvalidQuantity{text, reason}] on malformed
    text or on a fractional part with more digits than [precision]
    allows". *)
Definition ToQuantity (text : string) (precision : N)
  : result FixedQuantity :=
  let (i, f) := split_dot text in
  match digits_value i, f with
  | None, _ => Err (InvalidQuantity text "malformed")
  | Some v, None =>
      Ok {| precision := precision; magnitude := v * 10 ^ precision |}
  | Some v, Some frac =>
      match digits_value frac with
      | None => Err (InvalidQuantity text "malformed")
      | Some w =>
          let n := N.of_nat (String.length frac) in
          if precision <? n then
            Err (InvalidQuantity text "too many fractional digits")
          else
            Ok {| precision := precision;
                  magnitude := v * 10 ^ precision
                               + w * 10 ^ (precision - n) |}
      end
  end.

(** Modelled from the spec: [Quantity.Add] (missing), "returns the exact
    sum"; the spec requires equal precision of the operands, which is
    the case at the one call of the view, where every quantity is made
    at the precision of the public parameters. *)
Definition Add (a b : FixedQuantity) : FixedQuantity :=
  {| precision := precision a; magnitude := magnitude a + magnitude b |}.

Fixpoint zeros (n : nat) : string :=
  match n with
  | O => EmptyString
  | S n' => String "0" (zeros n')
  end.

(** The fractional part of a rendering: nothing at precision zero,
    else the point and [digits] padded with zeros on the left to
    [precision] digits. *)
Definition fractional (precision : N) (digits : string) : string :=
  if precision =? 0 then EmptyString
  else "." ++ zeros (N.to_nat precision - String.length digits) ++ digits.

(** Modelled from the spec: [Quantity.Decimal] (missing),
    "[ToDecimalString(q)] renders [q] with exactly [precision]
    fractional digits". *)
Definition Decimal (q : FixedQuantity) : string :=
  let unit := 10 ^ precision q in
  strconv.FormatUint10 (magnitude q / unit)
  ++ fractional (precision q) (strconv.FormatUint10 (magnitude q mod unit)).

End token2.

(** ** Package [views]: the balance view *)

Module views.
Import token2.

Record Balance : Type := {
  BalanceType : string;      (* field [Type] *)
  BalanceQuantity : string   (* field [Quantity] *)
}.

Section BalanceView.

(** The collaborators: the view context, the identifier of a token
    management service, and the quantities of package
    [token/token]. *)
Variables Context TMSID Quantity : Type.

Record Wallet : Type := {
  ListUnspentTokens : string -> result (list UnspentToken)
}.

Record ManagementService : Type := {
  OwnerWallet : string -> option Wallet;   (* nil when not found *)
  Precision : N
}.

Variable GetManagementService : Context -> TMSID -> ManagementService.

Variable NewZeroQuantity : N -> Quantity.
Variable ToQuantity : string -> N -> result Quantity.
Variable Add : Quantity -> Quantity -> Quantity.
Variable Decimal : Quantity -> string.

Record BalanceQuery : Type := {
  QueryTMSID : TMSID;     (* field [TMSID] *)
  QueryWallet : string;   (* field [Wallet] *)
  QueryType : string      (* field [Type] *)
}.

(** The loop of [Call] over [unspentTokens.Tokens]. *)
Fixpoint sum_loop (tokens : list UnspentToken) (precision : N)
         (sum : Quantity) : result Quantity :=
  match tokens with
  | [] => Ok sum
  | tok :: rest =>
      match ToQuantity (token2.Quantity tok) precision with
      | Err e => Err e
      | Ok q => sum_loop rest precision (Add sum q)
      end
  end.

(** [BalanceView.Call]; the trace events of the span are left out. *)
Definition Call (b : BalanceQuery) (context : Context)
  : option Balance * option error :=
  let tms := GetManagementService context (QueryTMSID b) in
  match OwnerWallet tms (QueryWallet b) with
  | None => (None, Some (Errorf "wallet %s not found" [QueryWallet b]))
  | Some wallet =>
      match ListUnspentTokens wallet (QueryType b) with
      | Err e => (None, Some e)
      | Ok unspentTokens =>
          let precision := Precision tms in
          let sum := NewZeroQuantity precision in
          match sum_loop unspentTokens precision sum with
          | Err e => (None, Some e)
          | Ok sum =>
              (Some {| BalanceQuantity := Decimal sum;
                       BalanceType := QueryType b |}, None)
          end
      end
  end.

End BalanceView.

Arguments Call {Context TMSID Quantity}.
Arguments sum_loop {Quantity}.
Arguments QueryTMSID {TMSID}.
Arguments QueryWallet {TMSID}.
Arguments QueryType {TMSID}.

End views.

(** ** A ledger to run the view on *)

Module BalanceExample.
Import token2 views.

(** One wallet, ["alice"], holding the given unspent tokens, under
    public parameters of the given precision. *)
Definition service (tokens : list UnspentToken) (precision : N)
  : ManagementService :=
  {| OwnerWallet := fun name =>
       if (name =? "alice")%string then
         Some {| ListUnspentTokens := fun _ => Ok tokens |}
       else None;
     Precision := precision |}.

Definition usd (quantity : string) : UnspentToken :=
  {| Type_ := "USD"; Quantity := quantity |}.

Definition query : BalanceQuery unit :=
  {| QueryTMSID := tt; QueryWallet := "alice"; QueryType := "USD" |}.

(** The view over the quantities modelled from the spec. *)
Definition balance (tokens : list UnspentToken) (precision : N)
  : option Balance * option error :=
  Call (fun (_ _ : unit) => service tokens precision)
       NewZeroQuantity ToQuantity Add Decimal query tt.

End BalanceExample.

(** * Specification

    The notions the statements below are written with. *)

Module KeySpec.
Import GoString.

(** The string is valid UTF-8 and none of its codepoints is U+0000 or
    U+10FFFF. *)
Definition Acceptable (s : string) : Prop :=
  utf8.ValidString s = true /\
  forall index r, In (index, r) (utf8.range s) ->
                  r <> 0%N /\ r <> utf8.MaxRune.

(** The substrings of [rest] that end at a zero byte, the first one
    continuing [cur]: what the spec calls "collecting substrings
    between delimiter bytes". *)
Fixpoint pieces (cur rest : string) : list string :=
  match rest with
  | EmptyString => []
  | String c t =>
      if (byte c =? 0)%N then cur :: pieces EmptyString t
      else pieces (cur ++ String c EmptyString) t
  end.

(** The components of a key: the delimited substrings from offset 1
    onward. *)
Definition components_of (key : string) : list string :=
  pieces EmptyString (drop 1 key).

(** Each attribute followed by the delimiter, in order. *)
Fixpoint frame (attributes : list string) : string :=
  match attributes with
  | [] => EmptyString
  | att :: rest => att ++ NUL ++ frame rest
  end.

(** Among the runes, [(index, r)] is the first whose rune is U+0000 or
    U+10FFFF. *)
Definition first_forbidden (runes : list (nat * N)) (index : nat) (r : N)
  : Prop :=
  exists before after,
    runes = (before ++ (index, r) :: after)%list /\
    (r = 0%N \/ r = utf8.MaxRune) /\
    forall i q, In (i, q) before -> q <> 0%N /\ q <> utf8.MaxRune.

End KeySpec.

(** * Properties *)

(** ** Facts on byte strings *)

Module GoStringFacts.
Import GoString.

Lemma take_drop (n : nat) (s : string) : take n s ++ drop n s = s.
Proof.
  revert s; induction n as [|n IH]; intros [|c t]; simpl; trivial.
  now rewrite IH.
Qed.

Lemma length_drop (n : nat) (s : string) :
  String.length (drop n s) = String.length s - n.
Proof.
  revert s; induction n as [|n IH]; intros [|c t]; simpl; trivial.
Qed.

Lemma length_app (a b : string) :
  String.length (a ++ b) = String.length a + String.length b.
Proof. induction a as [|c a IH]; simpl; [trivial | now rewrite IH]. Qed.

Lemma app_assoc (a b c : string) : (a ++ b) ++ c = a ++ b ++ c.
Proof. induction a as [|x a IH]; simpl; [trivial | now rewrite IH]. Qed.

Lemma app_empty_r (a : string) : a ++ "" = a.
Proof. induction a as [|x a IH]; simpl; [trivial | now rewrite IH]. Qed.

Lemma drop_app (a b : string) : drop (String.length a) (a ++ b) = b.
Proof. induction a as [|x a IH]; simpl; trivial. Qed.

Lemma byte_zero (c : ascii) : byte c = 0%N <-> c = zero.
Proof.
  split; intros H.
  - rewrite <- (ascii_N_embedding c). unfold byte in H. now rewrite H.
  - now subst c.
Qed.

Lemma nozero_app (a b : string) : nozero (a ++ b) <-> nozero a /\ nozero b.
Proof. induction a as [|x a IH]; simpl; tauto. Qed.

(** The byte after a prefix [a]. *)
Lemma at_app (a : string) (c : ascii) (t : string) :
  at_ (a ++ String c t) (String.length a) = byte c.
Proof.
  unfold at_. induction a as [|x a IH]; simpl; trivial.
Qed.

(** The slice between a prefix [a] and a suffix [c]. *)
Lemma slice_app (a b c : string) :
  slice (a ++ b ++ c) (String.length a) (String.length a + String.length b)
  = b.
Proof.
  unfold slice.
  replace (String.length a + String.length b - String.length a)
    with (String.length b) by lia.
  induction a as [|x a IH]; simpl; trivial.
  clear. revert c; induction b as [|y b IH]; intros c; simpl.
  - now destruct c.
  - now rewrite IH.
Qed.

End GoStringFacts.

(** ** Facts on the decoding of runes *)

Module utf8Facts.
Import GoString GoStringFacts utf8.
Local Open Scope N_scope.

Arguments DecodeRuneInString : simpl never.

(** The classes of a first byte. *)
Lemma first_cases (b : N) :
  (b < 0x80 /\ first b = as_) \/
  (0x80 <= b /\
   (first b = xx \/ first b = s1 \/ first b = s2 \/ first b = s3 \/
    first b = s4 \/ first b = s5 \/ first b = s6 \/ first b = s7)).
Proof.
  unfold first.
  destruct (b <? 0x80) eqn:H0; [left; split; [now apply N.ltb_lt | trivial]|].
  right. apply N.ltb_ge in H0. split; [exact H0|].
  repeat match goal with
         | |- context [if ?c then _ else _] => destruct c
         end; tauto.
Qed.

Ltac bool_to_prop :=
  repeat match goal with
         | H : (_ <? _) = true |- _ => apply N.ltb_lt in H
         | H : (_ <? _) = false |- _ => apply N.ltb_ge in H
         | H : (_ =? _) = true |- _ => apply N.eqb_eq in H
         | H : (_ =? _) = false |- _ => apply N.eqb_neq in H
         end.

Lemma nonzero_byte (c : ascii) : byte c <> 0 -> c <> zero.
Proof. intros H E. apply H. now apply byte_zero. Qed.

(** A decoding step that is valid and does not give the rune zero
    consumes between one and four bytes of the string, none of them
    zero. *)
Lemma decode_step (s : string) (r : N) (size : nat) :
  s <> "" ->
  DecodeRuneInString s = (r, size) ->
  (r =? RuneError) && (size =? 1)%nat = false ->
  r <> 0 ->
  (1 <= size <= String.length s)%nat /\ nozero (take size s).
Proof.
  intros Hs D V R.
  destruct s as [|c0 t]; [congruence|]. clear Hs.
  unfold DecodeRuneInString in D.
  change (at_ (String c0 t) 0) with (byte c0) in D.
  change (String.length (String c0 t)) with (S (String.length t)) in D.
  change (S (String.length t) <? 1)%nat with false in D. cbv iota in D.
  destruct (first_cases (byte c0)) as [[Hb F]|[Hb F]].
  - rewrite F in D. cbn in D. injection D as <- <-.
    simpl. split; [lia|]. split; [now apply nonzero_byte | trivial].
  - assert (C0 : c0 <> zero) by (apply nonzero_byte; lia).
    destruct F as [F|F]; [rewrite F in D; cbn in D; injection D as <- <-;
                          now cbn in V|].
    assert (K : forall lo hi sz,
               (lo = locb \/ lo = 0xA0 \/ lo = 0x90) ->
               (sz = 2 \/ sz = 3 \/ sz = 4)%nat ->
               (if (S (String.length t) <? sz)%nat then (RuneError, 1%nat)
                else
                  if (at_ (String c0 t) 1 <? lo) || (hi <? at_ (String c0 t) 1)
                  then (RuneError, 1%nat)
                  else if (sz <=? 2)%nat then
                    (N.lor (N.shiftl (N.land (byte c0) mask2) 6)
                           (N.land (at_ (String c0 t) 1) maskx), 2%nat)
                  else
                    if (at_ (String c0 t) 2 <? locb)
                       || (hicb <? at_ (String c0 t) 2)
                    then (RuneError, 1%nat)
                    else if (sz <=? 3)%nat then
                      (N.lor (N.lor (N.shiftl (N.land (byte c0) mask3) 12)
                                    (N.shiftl (N.land (at_ (String c0 t) 1) maskx) 6))
                             (N.land (at_ (String c0 t) 2) maskx), 3%nat)
                    else
                      if (at_ (String c0 t) 3 <? locb)
                         || (hicb <? at_ (String c0 t) 3)
                      then (RuneError, 1%nat)
                      else
                        (N.lor (N.lor (N.lor (N.shiftl (N.land (byte c0) mask4) 18)
                                             (N.shiftl (N.land (at_ (String c0 t) 1) maskx) 12))
                                      (N.shiftl (N.land (at_ (String c0 t) 2) maskx) 6))
                               (N.land (at_ (String c0 t) 3) maskx), 4%nat))
               = (r, size) ->
               (1 <= size <= String.length (String c0 t))%nat
               /\ nozero (take size (String c0 t))).
    { clear D F. intros lo hi sz Hlo Hsz D.
      destruct (S (String.length t) <? sz)%nat eqn:L;
        [injection D as <- <-; now cbn in V|].
      apply Nat.ltb_ge in L.
      destruct t as [|c1 t1]; [simpl in L; lia|].
      change (at_ (String c0 (String c1 t1)) 1) with (byte c1) in D.
      destruct (byte c1 <? lo) eqn:B1;
        [injection D as <- <-; now cbn in V|].
      destruct (hi <? byte c1) eqn:B1';
        [injection D as <- <-; now cbn in V|].
      cbn [orb] in D. bool_to_prop.
      assert (C1 : c1 <> zero)
        by (apply nonzero_byte; unfold locb in *; lia).
      destruct (sz <=? 2)%nat eqn:S2.
      { injection D as <- <-. simpl. split; [lia | tauto]. }
      apply Nat.leb_gt in S2.
      destruct t1 as [|c2 t2]; [simpl in L; lia|].
      change (at_ (String c0 (String c1 (String c2 t2))) 2)
        with (byte c2) in D.
      destruct (byte c2 <? locb) eqn:B2;
        [injection D as <- <-; now cbn in V|].
      destruct (hicb <? byte c2) eqn:B2';
        [injection D as <- <-; now cbn in V|].
      cbn [orb] in D. bool_to_prop.
      assert (C2 : c2 <> zero)
        by (apply nonzero_byte; unfold locb in *; lia).
      destruct (sz <=? 3)%nat eqn:S3.
      { injection D as <- <-. simpl. split; [lia | tauto]. }
      apply Nat.leb_gt in S3.
      destruct t2 as [|c3 t3]; [simpl in L; lia|].
      change (at_ (String c0 (String c1 (String c2 (String c3 t3)))) 3)
        with (byte c3) in D.
      destruct (byte c3 <? locb) eqn:B3;
        [injection D as <- <-; now cbn in V|].
      destruct (hicb <? byte c3) eqn:B3';
        [injection D as <- <-; now cbn in V|].
      cbn [orb] in D. bool_to_prop.
      assert (C3 : c3 <> zero)
        by (apply nonzero_byte; unfold locb in *; lia).
      injection D as <- <-. simpl. split; [lia | tauto]. }
    destruct F as [F|[F|[F|[F|[F|[F|F]]]]]]; rewrite F in D.
    + apply (K locb hicb 2%nat); [auto | auto | exact D].
    + apply (K 0xA0 hicb 3%nat); [auto | auto | exact D].
    + apply (K locb hicb 3%nat); [auto | auto | exact D].
    + apply (K locb 0x9F 3%nat); [auto | auto | exact D].
    + apply (K 0x90 hicb 4%nat); [auto | auto | exact D].
    + apply (K locb hicb 4%nat); [auto | auto | exact D].
    + apply (K locb 0x8F 4%nat); [auto | auto | exact D].
Qed.

(** A decoding step on a non-empty string consumes one to four
    bytes. *)
Lemma decode_size (c : ascii) (t : string) :
  (1 <= snd (DecodeRuneInString (String c t)) <= 4)%nat.
Proof.
  unfold DecodeRuneInString. cbv zeta.
  change (String.length (String c t) <? 1)%nat with false. cbv iota.
  repeat match goal with
         | |- context [if ?b then _ else _] => destruct b
         end; cbn [snd]; lia.
Qed.

(** The fuel [String.length s] is enough for the two loops over the
    runes of [s]: they end on the empty string, and more fuel does not
    change what they answer. *)
Lemma range_from_fuel (fuel : nat) :
  forall (s : string) (index : nat),
    (String.length s <= fuel)%nat ->
    range_from (S fuel) s index = range_from fuel s index.
Proof.
  induction fuel as [|fuel IH]; intros s index L.
  - destruct s; [reflexivity | simpl in L; lia].
  - destruct s as [|c t]; [reflexivity|].
    change (range_from (S (S fuel)) (String c t) index)
      with (let (r, size) := DecodeRuneInString (String c t) in
            (index, r)
              :: range_from (S fuel) (drop size (String c t))
                            (index + size)).
    change (range_from (S fuel) (String c t) index)
      with (let (r, size) := DecodeRuneInString (String c t) in
            (index, r)
              :: range_from fuel (drop size (String c t)) (index + size)).
    pose proof (decode_size c t) as B.
    destruct (DecodeRuneInString (String c t)) as [r size].
    cbn [snd] in B. rewrite IH; [reflexivity|].
    rewrite length_drop.
    change (String.length (String c t)) with (S (String.length t)) in *.
    lia.
Qed.

Lemma valid_from_fuel (fuel : nat) :
  forall s : string,
    (String.length s <= fuel)%nat ->
    valid_from (S fuel) s = valid_from fuel s.
Proof.
  induction fuel as [|fuel IH]; intros s L.
  - destruct s; [reflexivity | simpl in L; lia].
  - destruct s as [|c t]; [reflexivity|].
    change (valid_from (S (S fuel)) (String c t))
      with (let (r, size) := DecodeRuneInString (String c t) in
            if (r =? RuneError) && (size =? 1)%nat then false
            else valid_from (S fuel) (drop size (String c t))).
    change (valid_from (S fuel) (String c t))
      with (let (r, size) := DecodeRuneInString (String c t) in
            if (r =? RuneError) && (size =? 1)%nat then false
            else valid_from fuel (drop size (String c t))).
    pose proof (decode_size c t) as B.
    destruct (DecodeRuneInString (String c t)) as [r size].
    cbn [snd] in B. rewrite IH; [reflexivity|].
    rewrite length_drop.
    change (String.length (String c t)) with (S (String.length t)) in *.
    lia.
Qed.

End utf8Facts.

(** ** Facts on the key codec *)

Module keysFacts.
Import GoString GoStringFacts utf8Facts errors keys KeySpec.
Local Open Scope nat_scope.

Arguments utf8.DecodeRuneInString : simpl never.

Lemma validate_loop_None (runes : list (nat * N)) :
  validate_loop runes = None <->
  forall index r, In (index, r) runes -> r <> 0%N /\ r <> utf8.MaxRune.
Proof.
  induction runes as [|[i r] rest IH]; simpl.
  - split; [intros _ ? ? [] | trivial].
  - unfold minUnicodeRuneValue, MaxUnicodeRuneValue.
    destruct (N.eqb_spec r 0) as [E0|N0]; simpl.
    + split; [discriminate|]. intros H.
      destruct (H i r (or_introl eq_refl)); congruence.
    + destruct (N.eqb_spec r utf8.MaxRune) as [E1|N1].
      * split; [discriminate|]. intros H.
        destruct (H i r (or_introl eq_refl)); congruence.
      * rewrite IH. split.
        -- intros H j q [E|I]; [injection E as <- <-; auto | eauto].
        -- intros H j q I. eauto.
Qed.

(** Validation succeeds exactly on the acceptable strings. *)
Lemma validate_None (str : string) :
  ValidateCompositeKeyAttribute str = None <-> Acceptable str.
Proof.
  unfold ValidateCompositeKeyAttribute, Acceptable.
  destruct (utf8.ValidString str); simpl.
  - rewrite validate_loop_None. tauto.
  - split; [discriminate | intros [H _]; discriminate].
Qed.

Lemma valid_range_nozero (fuel : nat) :
  forall (s : string) (index : nat),
    String.length s <= fuel ->
    utf8.valid_from fuel s = true ->
    (forall i r, In (i, r) (utf8.range_from fuel s index) -> r <> 0%N) ->
    nozero s.
Proof.
  induction fuel as [|fuel IH]; intros s index L V R.
  - destruct s; [exact I | simpl in L; lia].
  - destruct s as [|c t]; [exact I|].
    cbn [utf8.valid_from utf8.range_from] in V, R.
    destruct (utf8.DecodeRuneInString (String c t)) as [r size] eqn:D.
    destruct ((r =? utf8.RuneError)%N && (size =? 1)) eqn:E;
      [discriminate|].
    assert (R0 : r <> 0%N) by (apply (R index); now left).
    destruct (decode_step (String c t) r size) as [B Z];
      [discriminate | exact D | exact E | exact R0 |].
    rewrite <- (take_drop size (String c t)). apply nozero_app.
    split; [exact Z|].
    apply (IH _ (index + size)).
    + rewrite length_drop. lia.
    + exact V.
    + intros i q H. apply (R i). now right.
Qed.

(** An acceptable string holds no zero byte: within valid UTF-8 the
    zero byte only encodes U+0000. *)
Lemma Acceptable_nozero (s : string) : Acceptable s -> nozero s.
Proof.
  intros [V R]. apply (valid_range_nozero (String.length s) s 0).
  - lia.
  - exact V.
  - intros i r H. now destruct (R i r H).
Qed.

(** The loop of [SplitCompositeKey] collects the delimited substrings:
    with [pre ++ cur] scanned and [cur] the component under way. *)
Lemma split_loop_pieces (rest : string) :
  forall (n : nat) (key pre cur : string) (components : list string),
    key = pre ++ cur ++ rest ->
    String.length rest <= n ->
    split_loop n key (String.length pre + String.length cur)
               (String.length pre) components
    = (components ++ pieces cur rest)%list.
Proof.
  induction rest as [|c t IH]; intros n key pre cur comps K L.
  - assert (E : String.length key
                = String.length pre + String.length cur)
      by (subst key; rewrite !length_app; simpl; lia).
    simpl. rewrite List.app_nil_r.
    destruct n; simpl; trivial.
    rewrite E, Nat.ltb_irrefl. trivial.
  - destruct n as [|n]; [simpl in L; lia|].
    simpl in L. cbn [split_loop pieces].
    assert (E : (String.length pre + String.length cur
                 <? String.length key) = true).
    { apply Nat.ltb_lt. subst key. rewrite !length_app. simpl. lia. }
    rewrite E.
    assert (A : at_ key (String.length pre + String.length cur) = byte c).
    { subst key. rewrite <- app_assoc, <- length_app. apply at_app. }
    rewrite A. unfold minUnicodeRuneValue.
    destruct (byte c =? 0)%N eqn:Z.
    + assert (S : slice key (String.length pre)
                        (String.length pre + String.length cur) = cur)
        by (subst key; apply slice_app).
      rewrite S.
      assert (C : c = zero) by (apply byte_zero; now apply N.eqb_eq).
      specialize (IH n key (pre ++ cur ++ String c "") "" (comps ++ [cur])%list).
      rewrite !length_app in IH. simpl in IH.
      replace (String.length pre + (String.length cur + 1) + 0)
        with (String.length pre + String.length cur + 1) in IH by lia.
      replace (String.length pre + (String.length cur + 1))
        with (String.length pre + String.length cur + 1) in IH by lia.
      rewrite IH.
      * now rewrite <- List.app_assoc.
      * subst key. now rewrite !app_assoc.
      * lia.
    + specialize (IH n key pre (cur ++ String c "") comps).
      rewrite length_app in IH. simpl in IH.
      replace (String.length pre + (String.length cur + 1))
        with (String.length pre + String.length cur + 1) in IH by lia.
      apply IH; [|lia].
      subst key. now rewrite !app_assoc.
Qed.

(** The components [SplitCompositeKey] finds are the delimited
    substrings of the key from offset 1 onward. *)
Lemma split_loop_components (key : string) :
  split_loop (String.length key) key 1 1 [] = components_of key.
Proof.
  unfold components_of. destruct key as [|c t]; [reflexivity|].
  change (drop 1 (String c t)) with t.
  apply (split_loop_pieces t (String.length (String c t)) (String c t)
                           (String c "") "" []).
  - reflexivity.
  - simpl. lia.
Qed.

Lemma pieces_nozero (s : string) :
  forall cur rest,
    nozero s ->
    pieces cur (s ++ NUL ++ rest) = (cur ++ s) :: pieces "" rest.
Proof.
  induction s as [|c s IH]; intros cur rest Z.
  - simpl. now rewrite app_empty_r.
  - destruct Z as [C Z]. cbn [append pieces].
    destruct (byte c =? 0)%N eqn:E.
    + exfalso. apply C. apply byte_zero. now apply N.eqb_eq.
    + rewrite IH by exact Z. now rewrite app_assoc.
Qed.

Lemma pieces_frame (attributes : list string) :
  Forall nozero attributes ->
  pieces "" (frame attributes) = attributes.
Proof.
  induction 1 as [|a l Z _ IH]; [reflexivity|].
  cbn [frame]. rewrite pieces_nozero by exact Z. simpl. now rewrite IH.
Qed.

(** The loop of [CreateCompositeKey] on acceptable attributes appends
    each of them with its delimiter. *)
Lemma create_loop_frame (attributes : list string) :
  forall ck,
    Forall Acceptable attributes ->
    create_loop attributes ck = (ck ++ frame attributes, None).
Proof.
  induction attributes as [|a l IH]; intros ck H; simpl.
  - now rewrite app_empty_r.
  - inversion H as [|? ? Ha Hl]; subst.
    apply validate_None in Ha. rewrite Ha.
    rewrite IH by exact Hl. unfold delimiter. now rewrite !app_assoc.
Qed.

(** The key of acceptable strings. *)
Lemma create_frame (objectType : string) (attributes : list string) :
  Acceptable objectType ->
  Forall Acceptable attributes ->
  CreateCompositeKey objectType attributes
  = (NUL ++ objectType ++ NUL ++ frame attributes, None).
Proof.
  intros Ho Ha. unfold CreateCompositeKey.
  apply validate_None in Ho. rewrite Ho.
  rewrite create_loop_frame by exact Ha.
  unfold compositeKeyNamespace, delimiter. now rewrite !app_assoc.
Qed.

(** The components of the key of acceptable strings. *)
Lemma components_frame (objectType : string) (attributes : list string) :
  Acceptable objectType ->
  Forall Acceptable attributes ->
  components_of (NUL ++ objectType ++ NUL ++ frame attributes)
  = objectType :: attributes.
Proof.
  intros Ho Ha. unfold components_of.
  change (drop 1 (NUL ++ objectType ++ NUL ++ frame attributes))
    with (objectType ++ NUL ++ frame attributes).
  rewrite pieces_nozero by now apply Acceptable_nozero.
  simpl. f_equal. apply pieces_frame.
  eapply Forall_impl; [|exact Ha]. exact Acceptable_nozero.
Qed.

(** An ASCII byte decodes to itself. *)
Lemma decode_ascii (c : ascii) (t : string) :
  (byte c < 0x80)%N ->
  utf8.DecodeRuneInString (String c t) = (byte c, 1).
Proof.
  intros H. unfold utf8.DecodeRuneInString.
  change (at_ (String c t) 0) with (byte c).
  unfold utf8.first. apply N.ltb_lt in H. rewrite H. reflexivity.
Qed.

Lemma plain_loops (s : string) (index : nat) :
  plain s ->
  utf8.valid_from (String.length s) s = true /\
  validate_loop (utf8.range_from (String.length s) s index) = None.
Proof.
  revert index; induction s as [|c t IH]; intros index P;
    [split; reflexivity|].
  destruct P as [[P0 P1] P].
  cbn [String.length utf8.valid_from utf8.range_from].
  rewrite decode_ascii by exact P1.
  change (drop 1 (String c t)) with t.
  destruct (IH (index + 1) P) as [V R].
  assert (E : (byte c =? utf8.RuneError)%N = false)
    by (apply N.eqb_neq; unfold utf8.RuneError; lia).
  rewrite E. cbn [andb validate_loop].
  unfold minUnicodeRuneValue, MaxUnicodeRuneValue, utf8.MaxRune.
  assert (E0 : (byte c =? 0)%N = false) by (apply N.eqb_neq; lia).
  assert (E1 : (byte c =? 0x10FFFF)%N = false) by (apply N.eqb_neq; lia).
  rewrite E0, E1. cbn [orb]. now split.
Qed.

(** ASCII text without NUL passes the validation. *)
Lemma plain_validate (s : string) :
  plain s -> ValidateCompositeKeyAttribute s = None.
Proof.
  intros P. unfold ValidateCompositeKeyAttribute, utf8.ValidString, utf8.range.
  destruct (plain_loops s 0 P) as [V R]. now rewrite V.
Qed.

Lemma digits_only_plain (s : string) : strconv.digits_only s -> plain s.
Proof.
  induction s as [|c t IH]; simpl; trivial.
  unfold byte. intros [H D]. split; [lia | auto].
Qed.

Lemma string_of_uint_digits (d : Decimal.uint) :
  strconv.digits_only (NilEmpty.string_of_uint d).
Proof.
  induction d; simpl; trivial;
    (split; [vm_compute; intuition congruence | assumption]).
Qed.

(** The decimal rendering of a number is made of digits. *)
Lemma FormatUint10_digits (i : N) :
  strconv.digits_only (strconv.FormatUint10 i).
Proof.
  unfold strconv.FormatUint10, NilZero.string_of_uint.
  destruct (N.to_uint i) eqn:E;
    try (rewrite <- E; apply string_of_uint_digits).
  simpl. split; [vm_compute; intuition congruence | trivial].
Qed.

Lemma FormatUint10_acceptable (i : N) :
  Acceptable (strconv.FormatUint10 i).
Proof.
  apply validate_None, plain_validate, digits_only_plain,
    FormatUint10_digits.
Qed.

(** The decimal rendering reads back as the number. *)
Lemma FormatUint10_reads_back (i : N) :
  option_map N.of_uint (NilZero.uint_of_string (strconv.FormatUint10 i))
  = Some i.
Proof.
  unfold strconv.FormatUint10. rewrite NilZero.usu.
  - simpl. now rewrite DecimalN.Unsigned.of_to.
  - destruct i; simpl; [discriminate | apply Unsigned.to_uint_nonnil].
Qed.

Lemma prefix_app (a b : string) : prefix a (a ++ b) = true.
Proof.
  induction a as [|c a IH]; simpl; [now destruct b|].
  destruct (ascii_dec c c); [exact IH | congruence].
Qed.

(** What [SplitCompositeKey] answers, in terms of the components of
    the key. *)
Lemma split_cases (key : string) :
  SplitCompositeKey key =
  if length (components_of key) <? 3 then
    ("", [], Some (New (NotEnoughComponents key (length (components_of key))
                                            (components_of key))))
  else (hd "" (components_of key), tl (components_of key), None).
Proof.
  unfold SplitCompositeKey. now rewrite split_loop_components.
Qed.

(** The split of the key of acceptable strings. *)
Lemma split_frame (objectType : string) (attributes : list string) :
  Acceptable objectType ->
  Forall Acceptable attributes ->
  SplitCompositeKey (NUL ++ objectType ++ NUL ++ frame attributes) =
  if length attributes <? 2 then
    ("", [],
     Some (New (NotEnoughComponents
                  (NUL ++ objectType ++ NUL ++ frame attributes)
                  (S (length attributes)) (objectType :: attributes))))
  else (objectType, attributes, None).
Proof.
  intros Ho Ha. rewrite split_cases, components_frame by assumption.
  reflexivity.
Qed.

Lemma drop_drop (a b : nat) (s : string) :
  drop a (drop b s) = drop (b + a) s.
Proof.
  revert s; induction b as [|b IH]; intros s; [reflexivity|].
  destruct s as [|c t]; simpl; [now destruct a | apply IH].
Qed.

(** The index the iteration gives with a rune is the byte offset the
    rune is decoded at. *)
Lemma range_position (fuel : nat) :
  forall (s : string) (index i : nat) (r : N),
    In (i, r) (utf8.range_from fuel s index) ->
    index <= i /\
    fst (utf8.DecodeRuneInString (drop (i - index) s)) = r.
Proof.
  induction fuel as [|fuel IH]; intros s index i r H; [destruct H|].
  destruct s as [|c t]; [destruct H|].
  cbn [utf8.range_from] in H.
  destruct (utf8.DecodeRuneInString (String c t)) as [r0 size] eqn:D.
  destruct H as [E|H].
  - injection E as <- <-. rewrite Nat.sub_diag.
    change (drop 0 (String c t)) with (String c t).
    rewrite D. split; [lia | reflexivity].
  - apply IH in H. destruct H as [L H]. split; [lia|].
    rewrite drop_drop in H.
    replace (size + (i - (index + size))) with (i - index) in H by lia.
    exact H.
Qed.

Lemma validate_loop_Some (runes : list (nat * N)) (e : err) :
  validate_loop runes = Some e ->
  exists index r,
    e = New (ForbiddenRune r index) /\ first_forbidden runes index r.
Proof.
  induction runes as [|[i q] rest IH]; simpl; [discriminate|].
  unfold minUnicodeRuneValue, MaxUnicodeRuneValue.
  destruct (N.eqb_spec q 0) as [E0|N0]; simpl.
  - intros H. injection H as <-. exists i, q. split; [reflexivity|].
    exists [], rest. split; [reflexivity|].
    split; [now left | intros ? ? []].
  - destruct (N.eqb_spec q utf8.MaxRune) as [E1|N1].
    + intros H. injection H as <-. exists i, q. split; [reflexivity|].
      exists [], rest. split; [reflexivity|].
      split; [now right | intros ? ? []].
    + intros H. destruct (IH H) as (j & r & -> & before & after & -> & F & B).
      exists j, r. split; [reflexivity|].
      exists ((i, q) :: before), after. split; [reflexivity|].
      split; [exact F|].
      intros k p [E|I]; [injection E as <- <-; now split | eauto].
Qed.

(** The two errors of the validation: a string that is not valid UTF-8
    is reported whole; in a valid one the first forbidden codepoint is
    reported with the byte offset it is decoded at. *)
Lemma validate_Some (str : string) (e : err) :
  ValidateCompositeKeyAttribute str = Some e ->
  (utf8.ValidString str = false /\ e = New (NotValidUTF8 str)) \/
  (utf8.ValidString str = true /\
   exists index r,
     e = New (ForbiddenRune r index) /\
     first_forbidden (utf8.range str) index r /\
     fst (utf8.DecodeRuneInString (drop index str)) = r).
Proof.
  unfold ValidateCompositeKeyAttribute.
  destruct (utf8.ValidString str); simpl; intros H.
  - right. split; [reflexivity|].
    destruct (validate_loop_Some _ _ H) as (index & r & -> & F).
    exists index, r. split; [reflexivity|]. split; [exact F|].
    destruct F as (before & after & E & _).
    assert (I : In (index, r) (utf8.range str))
      by (rewrite E; apply in_or_app; right; now left).
    apply range_position in I. destruct I as [_ I].
    now rewrite Nat.sub_0_r in I.
  - left. injection H as <-. now split.
Qed.

(** The loop of [CreateCompositeKey]: either every attribute is
    acceptable and the key is framed, or the loop stops at the first
    attribute that is not, with its error and the empty key. *)
Lemma create_loop_cases (attributes : list string) :
  forall ck,
    (Forall Acceptable attributes /\
     create_loop attributes ck = (ck ++ frame attributes, None)) \/
    (exists before s after e,
        attributes = (before ++ s :: after)%list /\
        Forall Acceptable before /\
        ValidateCompositeKeyAttribute s = Some e /\
        create_loop attributes ck = ("", Some e)).
Proof.
  induction attributes as [|a l IH]; intros ck.
  - left. split; [constructor | simpl; now rewrite app_empty_r].
  - cbn [create_loop].
    destruct (ValidateCompositeKeyAttribute a) as [e|] eqn:V.
    + right. exists [], a, l, e. repeat split; trivial.
    + apply validate_None in V.
      destruct (IH (ck ++ a ++ delimiter))
        as [[F E]|(before & s & after & e & -> & F & Vs & E)].
      * left. split; [now constructor|].
        rewrite E. cbn [frame]. unfold delimiter. now rewrite !app_assoc.
      * right. exists (a :: before), s, after, e.
        repeat split; trivial. now constructor.
Qed.

Lemma create_cases (objectType : string) (attributes : list string) :
  (Forall Acceptable (objectType :: attributes) /\
   CreateCompositeKey objectType attributes
   = (NUL ++ objectType ++ NUL ++ frame attributes, None)) \/
  (exists before s after e,
      objectType :: attributes = (before ++ s :: after)%list /\
      Forall Acceptable before /\
      ValidateCompositeKeyAttribute s = Some e /\
      CreateCompositeKey objectType attributes = ("", Some e)).
Proof.
  unfold CreateCompositeKey.
  destruct (ValidateCompositeKeyAttribute objectType) as [e|] eqn:V.
  - right. exists [], objectType, attributes, e. repeat split; trivial.
  - apply validate_None in V.
    destruct (create_loop_cases attributes
                (compositeKeyNamespace ++ objectType ++ delimiter))
      as [[F E]|(before & s & after & e & -> & F & Vs & E)].
    + left. split; [now constructor|].
      rewrite E. unfold compositeKeyNamespace, delimiter.
      now rewrite !app_assoc.
    + right. exists (objectType :: before), s, after, e.
      repeat split; trivial. now constructor.
Qed.

End keysFacts.

(** * The claims on the key codec *)

Import GoString GoStringFacts errors keys KeySpec keysFacts.
Open Scope nat_scope.

(** Acceptability of a string given in full, by evaluation. *)
Ltac acceptable_literal :=
  split;
  [ reflexivity
  | let i := fresh "i" in
    let r := fresh "r" in
    let H := fresh "H" in
    intros i r H; vm_compute in H;
    repeat (destruct H as [H|H];
            [injection H as <- <-; split; discriminate|]);
    destruct H ].

Ltac acceptable_literals :=
  repeat (apply Forall_cons; [acceptable_literal|]); apply Forall_nil.

Lemma Acceptable_TokenKeyPrefix : Acceptable TokenKeyPrefix.
Proof. acceptable_literal. Qed.

Lemma Acceptable_TransferActionMetadata : Acceptable TransferActionMetadata.
Proof. acceptable_literal. Qed.




(** C2, as stated, fails: the key of [CreateSetupKey] is rejected when
    split, two components found. *)
Lemma setup_key_rejected_counterexample :
  CreateSetupKey = (NUL ++ "ztoken" ++ NUL ++ "setup" ++ NUL, None) /\
  SplitCompositeKey (fst CreateSetupKey) =
  ("", [], Some (New (NotEnoughComponents (fst CreateSetupKey) 2
                                          ["ztoken"; "setup"]))).
Proof. split; reflexivity. Qed.

(** C2 (amended): [SplitCompositeKey] fails, with the error that reports
    the key, the number of components found and the components, exactly
    when it finds fewer than [numComponentsInKey + 1 = 3]
    delimiter-separated components (the object type and two attributes);
    the minimum is that one constant of the package, the same for every
    caller, so the keys with no or one attribute, such as the key of
    [CreateSetupKey], are rejected when split. *)
Theorem split_fails_below_three (key : string) :
  SplitCompositeKey key =
  (if length (components_of key) <? numComponentsInKey + 1 then
     ("", [], Some (New (NotEnoughComponents key
                                             (length (components_of key))
                                             (components_of key))))
   else (hd "" (components_of key), tl (components_of key), None))
  /\ (snd (SplitCompositeKey key) <> None
      <-> length (components_of key) < 3)
  /\ snd (SplitCompositeKey (fst CreateSetupKey)) <> None.
Proof.
  split; [apply split_cases|]. split; [|vm_compute; discriminate].
  rewrite split_cases.
  destruct (Nat.ltb_spec (length (components_of key)) 3); simpl.
  - split; [trivial | discriminate].
  - split; [congruence | lia].
Qed.

(** What [GetTransferMetadataSubKey] answers, in terms of the components
    of the key; the second case answers the nil error. *)
Lemma GetTransferMetadataSubKey_cases (k : string) :
  GetTransferMetadataSubKey k =
  let found := components_of k in
  if length found <? 3 then
    ("", Some (Wrap (New (NotEnoughComponents k (length found) found))
                    (FailedToSplit k)))
  else if negb (length (tl found) =? 2) then ("", None)
  else if negb (hd "" found =? TokenKeyPrefix)%string then
    ("", Some (New (NoTokenKeyPrefix k)))
  else if negb (nth 0 (tl found) "" =? TransferActionMetadata)%string then
    ("", Some (New (NoTransferActionMetadataPrefix k)))
  else (nth 1 (tl found) "", None).
Proof.
  unfold GetTransferMetadataSubKey. rewrite split_cases. cbv zeta.
  destruct (length (components_of k) <? 3); reflexivity.
Qed.

(** C3 (the code at the failing input): on the key of object type
    ["ztoken"] with the three attributes ["tam"], ["a"], ["b"],
    [GetTransferMetadataSubKey] answers the empty string with the nil
    error: [errors.Wrapf] is given the nil error of the split. *)
Theorem GetTransferMetadataSubKey_three_attributes :
  CreateCompositeKey "ztoken" ["tam"; "a"; "b"] =
  (NUL ++ "ztoken" ++ NUL ++ "tam" ++ NUL ++ "a" ++ NUL ++ "b" ++ NUL, None)
  /\ GetTransferMetadataSubKey
       (NUL ++ "ztoken" ++ NUL ++ "tam" ++ NUL ++ "a" ++ NUL ++ "b" ++ NUL)
     = ("", None).
Proof. split; reflexivity. Qed.

(** Any key of three or more acceptable attributes is answered with the
    nil error. *)
Lemma GetTransferMetadataSubKey_long_keys (objectType : string)
      (attributes : list string) :
  Acceptable objectType ->
  Forall Acceptable attributes ->
  3 <= length attributes ->
  GetTransferMetadataSubKey (NUL ++ objectType ++ NUL ++ frame attributes)
  = ("", None).
Proof.
  intros Ho Ha L. rewrite GetTransferMetadataSubKey_cases. cbv zeta.
  rewrite components_frame by assumption. cbn [length hd tl].
  destruct (Nat.ltb_spec (S (length attributes)) 3); [lia|].
  destruct (Nat.eqb_spec (length attributes) 2); [lia | reflexivity].
Qed.

(** C5: for every subKey that is valid UTF-8 and free of U+0000 and
    U+10FFFF, [CreateTransferActionMetadataKey] builds a key on which
    [GetTransferMetadataSubKey] answers exactly subKey, with no error. *)
Theorem transfer_metadata_roundtrip (subKey : string) :
  Acceptable subKey ->
  exists key,
    CreateTransferActionMetadataKey subKey = (key, None) /\
    GetTransferMetadataSubKey key = (subKey, None).
Proof.
  intros Hs.
  assert (Ha : Forall Acceptable [TransferActionMetadata; subKey])
    by (apply Forall_cons; [exact Acceptable_TransferActionMetadata|];
        apply Forall_cons; [exact Hs | apply Forall_nil]).
  exists (NUL ++ TokenKeyPrefix ++ NUL
              ++ frame [TransferActionMetadata; subKey]).
  split.
  - unfold CreateTransferActionMetadataKey.
    apply create_frame; [exact Acceptable_TokenKeyPrefix | exact Ha].
  - rewrite GetTransferMetadataSubKey_cases. cbv zeta.
    rewrite components_frame by (exact Acceptable_TokenKeyPrefix || exact Ha).
    reflexivity.
Qed.

Lemma transfer_metadata_roundtrip_witness :
  Acceptable "abc" /\
  exists key,
    CreateTransferActionMetadataKey "abc" = (key, None) /\
    GetTransferMetadataSubKey key = ("abc", None).
Proof.
  assert (H : Acceptable "abc") by acceptable_literal.
  split; [exact H | exact (transfer_metadata_roundtrip "abc" H)].
Defined.

(** C7: for every object type and attribute list free of forbidden
    codepoints, the key of [CreateCompositeKey] is the namespace byte
    0x00, the object type, the delimiter byte 0x00, then each attribute
    followed by the delimiter byte, in order; so the key starts with
    namespace + objectType + delimiter, whatever the attributes, and the
    keys of one object type share that prefix. *)
Theorem key_framing (objectType : string) (attributes : list string) :
  Acceptable objectType ->
  Forall Acceptable attributes ->
  CreateCompositeKey objectType attributes
  = (String zero (objectType ++ String zero (frame attributes)), None)
  /\ byte zero = 0%N
  /\ prefix (compositeKeyNamespace ++ objectType ++ delimiter)
            (fst (CreateCompositeKey objectType attributes)) = true.
Proof.
  intros Ho Ha. rewrite create_frame by assumption.
  split; [reflexivity|]. split; [reflexivity|].
  cbn [fst]. unfold compositeKeyNamespace, delimiter.
  rewrite <- (app_assoc objectType NUL (frame attributes)).
  rewrite <- (app_assoc NUL (objectType ++ NUL) (frame attributes)).
  apply prefix_app.
Qed.

Lemma key_framing_witness :
  Acceptable "ztoken" /\ Forall Acceptable ["tx1"; "3"] /\
  (CreateCompositeKey "ztoken" ["tx1"; "3"]
   = (String zero ("ztoken" ++ String zero (frame ["tx1"; "3"])), None)
   /\ byte zero = 0%N
   /\ prefix (compositeKeyNamespace ++ "ztoken" ++ delimiter)
             (fst (CreateCompositeKey "ztoken" ["tx1"; "3"])) = true).
Proof.
  assert (Ho : Acceptable "ztoken") by acceptable_literal.
  assert (Ha : Forall Acceptable ["tx1"; "3"])
    by acceptable_literals.
  split; [exact Ho|]. split; [exact Ha|].
  exact (key_framing "ztoken" ["tx1"; "3"] Ho Ha).
Defined.

(** C9: [CreateTokenKey txID index] is the key of object type ["ztoken"]
    with the two attributes txID and the decimal rendering of index
    (which reads back as index); for an acceptable txID the key is built
    and splits into ["ztoken"] and those two attributes. *)
Theorem token_key_shape (txID : string) (index : N) :
  Acceptable txID ->
  CreateTokenKey txID index
  = CreateCompositeKey "ztoken" [txID; strconv.FormatUint10 index]
  /\ option_map N.of_uint
                (NilZero.uint_of_string (strconv.FormatUint10 index))
     = Some index
  /\ exists key,
      CreateTokenKey txID index = (key, None) /\
      SplitCompositeKey key
      = ("ztoken", [txID; strconv.FormatUint10 index], None).
Proof.
  intros Ht. split; [reflexivity|].
  split; [apply FormatUint10_reads_back|].
  assert (Ha : Forall Acceptable [txID; strconv.FormatUint10 index])
    by (apply Forall_cons; [exact Ht|];
        apply Forall_cons; [apply FormatUint10_acceptable | apply Forall_nil]).
  exists (NUL ++ "ztoken" ++ NUL
              ++ frame [txID; strconv.FormatUint10 index]).
  split.
  - apply create_frame; [exact Acceptable_TokenKeyPrefix | exact Ha].
  - rewrite split_frame by (exact Acceptable_TokenKeyPrefix || exact Ha).
    reflexivity.
Qed.

Lemma token_key_shape_witness :
  Acceptable "tx1" /\
  (CreateTokenKey "tx1" 3 = CreateCompositeKey "ztoken" ["tx1"; "3"]
   /\ option_map N.of_uint (NilZero.uint_of_string "3") = Some 3%N
   /\ exists key,
       CreateTokenKey "tx1" 3 = (key, None) /\
       SplitCompositeKey key = ("ztoken", ["tx1"; "3"], None)).
Proof.
  assert (H : Acceptable "tx1") by acceptable_literal.
  split; [exact H | exact (token_key_shape "tx1" 3 H)].
Defined.

(** C10: for every txID that is valid UTF-8 and contains neither U+0000
    nor U+10FFFF and for every index (a uint64 is a number below 2^64,
    and the statement holds for every number), [CreateTokenKey] answers
    the nil error and the framed key: the decimal rendering of the index
    is made of ASCII digits only and passes the validation of
    attributes. *)
Theorem token_key_never_fails (txID : string) (index : N) :
  Acceptable txID ->
  strconv.digits_only (strconv.FormatUint10 index)
  /\ ValidateCompositeKeyAttribute (strconv.FormatUint10 index) = None
  /\ CreateTokenKey txID index
     = (NUL ++ "ztoken" ++ NUL ++ txID ++ NUL
            ++ strconv.FormatUint10 index ++ NUL, None).
Proof.
  intros Ht. split; [apply FormatUint10_digits|].
  split; [apply validate_None, FormatUint10_acceptable|].
  unfold CreateTokenKey. rewrite create_frame.
  - cbn [frame]. now rewrite app_empty_r.
  - exact Acceptable_TokenKeyPrefix.
  - apply Forall_cons; [exact Ht|].
    apply Forall_cons; [apply FormatUint10_acceptable | apply Forall_nil].
Qed.

Lemma token_key_never_fails_witness :
  Acceptable "tx1" /\
  (strconv.digits_only (strconv.FormatUint10 18446744073709551615)
   /\ ValidateCompositeKeyAttribute
        (strconv.FormatUint10 18446744073709551615) = None
   /\ CreateTokenKey "tx1" 18446744073709551615
      = (NUL ++ "ztoken" ++ NUL ++ "tx1" ++ NUL
             ++ "18446744073709551615" ++ NUL, None)).
Proof.
  assert (H : Acceptable "tx1") by acceptable_literal.
  split; [exact H|].
  exact (token_key_never_fails "tx1" 18446744073709551615 H).
Defined.

(** C6, as stated, fails: the attribute of the two bytes 0x00 0xFF holds
    U+0000 at position 0, the key is refused, and the error names no
    codepoint and no position: it is the error of a string that is not
    valid UTF-8. *)
Lemma invalid_text_error_counterexample :
  In (0, 0%N) (utf8.range (String zero (String "255" ""))) /\
  CreateCompositeKey "ztoken" [String zero (String "255" "")]
  = ("", Some (New (NotValidUTF8 (String zero (String "255" ""))))) /\
  ~ exists r index,
      snd (CreateCompositeKey "ztoken" [String zero (String "255" "")])
      = Some (New (ForbiddenRune r index)).
Proof.
  split; [vm_compute; auto|]. split; [reflexivity|].
  intros (r & index & H). vm_compute in H. discriminate.
Qed.

(** C6 (amended): [CreateCompositeKey objectType attrs] fails if and only
    if objectType or some attribute is not valid UTF-8 or contains U+0000
    or U+10FFFF; it then answers the empty key with the error of the
    first such string, in the order objectType, attributes.  When that
    string is valid UTF-8 the error names its first forbidden codepoint
    and the byte offset it is decoded at; when it is not valid UTF-8 the
    error carries the string itself and names no codepoint or position.
    When it succeeds every string is kept whole in the key. *)
Theorem create_fails_iff (objectType : string) (attributes : list string) :
  (snd (CreateCompositeKey objectType attributes) <> None
   <-> exists s, In s (objectType :: attributes) /\ ~ Acceptable s)
  /\ (forall e,
         snd (CreateCompositeKey objectType attributes) = Some e ->
         fst (CreateCompositeKey objectType attributes) = "" /\
         exists before s after,
           objectType :: attributes = (before ++ s :: after)%list /\
           Forall Acceptable before /\
           ~ Acceptable s /\
           ((utf8.ValidString s = false /\ e = New (NotValidUTF8 s)) \/
            (utf8.ValidString s = true /\
             exists index r,
               e = New (ForbiddenRune r index) /\
               first_forbidden (utf8.range s) index r /\
               fst (utf8.DecodeRuneInString (drop index s)) = r)))
  /\ (snd (CreateCompositeKey objectType attributes) = None ->
      fst (CreateCompositeKey objectType attributes)
      = NUL ++ objectType ++ NUL ++ frame attributes).
Proof.
  destruct (create_cases objectType attributes)
    as [[F E]|(before & s & after & e & L & F & V & E)]; rewrite E; cbn [fst snd].
  - split; [|split; [discriminate | reflexivity]].
    split; [congruence|]. intros (s & I & N). exfalso. apply N.
    rewrite Forall_forall in F. now apply F.
  - assert (N : ~ Acceptable s)
      by (intros A; apply validate_None in A; congruence).
    split; [|split; [|discriminate]].
    + split; [|discriminate]. intros _. exists s. split; [|exact N].
      rewrite L. apply in_or_app. right. now left.
    + intros e' H. injection H as <-. split; [reflexivity|].
      exists before, s, after. repeat split; trivial.
      now apply validate_Some.
Qed.

(** * The claims on the balance view *)

Module viewsFacts.
Import token2 views.

Section SumLoop.
Variable Quantity : Type.
Variable ToQuantity : string -> N -> result Quantity.
Variable Add : Quantity -> Quantity -> Quantity.

(** The loop stops at the first quantity that does not parse, with
    its error, whatever the sum so far. *)
Lemma sum_loop_first_error (before : list UnspentToken) :
  forall (tok : UnspentToken) (after : list UnspentToken)
         (precision : N) (e : error) (sum : Quantity),
    (forall t, In t before ->
               exists q, ToQuantity (token2.Quantity t) precision = Ok q) ->
    ToQuantity (token2.Quantity tok) precision = Err e ->
    sum_loop ToQuantity Add (before ++ tok :: after)%list precision sum
    = Err e.
Proof.
  induction before as [|t l IH]; intros tok after precision e sum B F;
    simpl.
  - now rewrite F.
  - destruct (B t (or_introl eq_refl)) as [q ->].
    apply IH; [|exact F]. intros u I. apply B. now right.
Qed.

(** Where some quantity does not parse, there is a first one. *)
Lemma first_failure (tokens : list UnspentToken) (precision : N) :
  (exists tok, In tok tokens /\
               exists e, ToQuantity (token2.Quantity tok) precision
                         = Err e) ->
  exists before tok after e,
    tokens = (before ++ tok :: after)%list /\
    (forall t, In t before ->
               exists q, ToQuantity (token2.Quantity t) precision = Ok q) /\
    ToQuantity (token2.Quantity tok) precision = Err e.
Proof.
  induction tokens as [|t l IH]; intros (tok & I & e & F);
    [destruct I|].
  destruct (ToQuantity (token2.Quantity t) precision) as [q|e'] eqn:T.
  - destruct I as [->|I]; [congruence|].
    destruct IH as (before & tok' & after & e'' & -> & B & F');
      [now exists tok; split; [|exists e]|].
    exists (t :: before), tok', after, e''.
    split; [reflexivity|]. split; [|exact F'].
    intros u [<-|J]; [now exists q | now apply B].
  - exists [], t, l, e'. split; [reflexivity|].
    split; [intros ? [] | exact T].
Qed.

End SumLoop.

Lemma zeros_snoc (n : nat) : zeros n ++ "0" = zeros (S n).
Proof. induction n as [|n IH]; simpl; [trivial | now rewrite IH]. Qed.

Lemma zeros_length (n : nat) : String.length (zeros n) = n.
Proof. induction n as [|n IH]; simpl; [trivial | now rewrite IH]. Qed.

(** The rendering of zero. *)
Lemma Decimal_zero (precision : N) :
  Decimal (NewZeroQuantity precision) =
  if (precision =? 0)%N then "0"
  else "0." ++ zeros (N.to_nat precision).
Proof.
  unfold Decimal, NewZeroQuantity. cbn [token2.precision magnitude].
  rewrite N.Div0.div_0_l, N.Div0.mod_0_l.
  change (strconv.FormatUint10 0) with "0".
  unfold fractional. destruct (N.eqb_spec precision 0) as [E|E];
    [reflexivity|].
  cbn [String.length append]. do 2 f_equal.
  destruct (N.to_nat precision) as [|n] eqn:P; [lia|].
  replace (S n - 1) with n by lia. apply zeros_snoc.
Qed.

End viewsFacts.

Import token2 views viewsFacts.

(** The quantities of the spec on the examples it gives. *)
Example balance_of_three_tokens :
  BalanceExample.balance
    [BalanceExample.usd "5.00"; BalanceExample.usd "2.50";
     BalanceExample.usd "0.75"] 2
  = (Some {| BalanceType := "USD"; BalanceQuantity := "8.25" |}, None).
Proof. reflexivity. Qed.

Example quantity_sum_of_mixed_texts :
  match ToQuantity "1" 2, ToQuantity "2.00" 2, ToQuantity "0.01" 2 with
  | Ok a, Ok b, Ok c => Decimal (Add (Add a b) c)
  | _, _, _ => ""
  end = "3.01".
Proof. reflexivity. Qed.

(** C4: if the quantity text of some enumerated unspent token does not
    parse at the precision of the public parameters, [BalanceView.Call]
    answers no balance and the error of the parse, the one of the first
    such token in the enumeration; no sum is answered. *)
Theorem bad_quantity_fails_balance
        (Context TMSID Quantity : Type)
        (GetManagementService : Context -> TMSID -> ManagementService)
        (NewZeroQuantity : N -> Quantity)
        (ToQuantity : string -> N -> result Quantity)
        (Add : Quantity -> Quantity -> Quantity)
        (Decimal : Quantity -> string)
        (b : BalanceQuery TMSID) (context : Context)
        (wallet : Wallet) (tokens : list UnspentToken) :
  OwnerWallet (GetManagementService context (QueryTMSID b)) (QueryWallet b)
  = Some wallet ->
  ListUnspentTokens wallet (QueryType b) = Ok tokens ->
  (exists tok,
      In tok tokens /\
      exists e,
        ToQuantity (token2.Quantity tok)
                   (Precision (GetManagementService context (QueryTMSID b)))
        = Err e) ->
  exists before tok after e,
    tokens = (before ++ tok :: after)%list /\
    (forall t, In t before ->
               exists q,
                 ToQuantity (token2.Quantity t)
                            (Precision
                               (GetManagementService context (QueryTMSID b)))
                 = Ok q) /\
    ToQuantity (token2.Quantity tok)
               (Precision (GetManagementService context (QueryTMSID b)))
    = Err e /\
    Call GetManagementService NewZeroQuantity ToQuantity Add Decimal
         b context
    = (None, Some e).
Proof.
  intros W L F.
  destruct (first_failure Quantity ToQuantity tokens _ F)
    as (before & tok & after & e & E & B & T).
  exists before, tok, after, e. repeat split; trivial.
  unfold Call. rewrite W, L. subst tokens.
  now rewrite (sum_loop_first_error Quantity ToQuantity Add before tok after _ e).
Qed.

Lemma bad_quantity_fails_balance_witness :
  let tokens := [BalanceExample.usd "5.00"; BalanceExample.usd "2.5x";
                 BalanceExample.usd "0.75"] in
  exists before tok after e,
    tokens = (before ++ tok :: after)%list /\
    (forall t, In t before ->
               exists q, ToQuantity (token2.Quantity t) 2 = Ok q) /\
    ToQuantity (token2.Quantity tok) 2 = Err e /\
    BalanceExample.balance tokens 2 = (None, Some e).
Proof.
  intros tokens.
  apply (bad_quantity_fails_balance
           unit unit FixedQuantity
           (fun _ _ => BalanceExample.service tokens 2)
           NewZeroQuantity ToQuantity Add Decimal
           BalanceExample.query tt
           {| ListUnspentTokens := fun _ => Ok tokens |} tokens).
  - reflexivity.
  - reflexivity.
  - exists (BalanceExample.usd "2.5x"). split.
    + simpl. auto.
    + exists (InvalidQuantity "2.5x" "malformed"). reflexivity.
Defined.

(** C8: when the enumeration of the unspent tokens of the wallet is
    empty, [BalanceView.Call] at precision [P] answers no error and the
    balance of the queried type whose quantity is zero rendered with
    exactly [P] fractional digits: ["0"], the point and [P] zeros (at
    precision 2, ["0.00"]; no point at precision zero). *)
Theorem empty_wallet_balance_is_zero
        (Context TMSID : Type)
        (GetManagementService : Context -> TMSID -> ManagementService)
        (ToQuantity : string -> N -> result FixedQuantity)
        (Add : FixedQuantity -> FixedQuantity -> FixedQuantity)
        (b : BalanceQuery TMSID) (context : Context) (wallet : Wallet) :
  OwnerWallet (GetManagementService context (QueryTMSID b)) (QueryWallet b)
  = Some wallet ->
  ListUnspentTokens wallet (QueryType b) = Ok [] ->
  Call GetManagementService NewZeroQuantity ToQuantity Add Decimal b context
  = (Some {| BalanceType := QueryType b;
             BalanceQuantity :=
               let P := Precision
                          (GetManagementService context (QueryTMSID b)) in
               if (P =? 0)%N then "0" else "0." ++ zeros (N.to_nat P) |},
     None)
  /\ String.length
       (zeros (N.to_nat
                 (Precision (GetManagementService context (QueryTMSID b)))))
     = N.to_nat (Precision (GetManagementService context (QueryTMSID b))).
Proof.
  intros W L. split; [|apply zeros_length].
  unfold Call. rewrite W, L. cbn [sum_loop].
  now rewrite Decimal_zero.
Qed.

Lemma empty_wallet_balance_is_zero_witness :
  BalanceExample.balance [] 2
  = (Some {| BalanceType := "USD"; BalanceQuantity := "0.00" |}, None)
  /\ String.length (zeros 2) = 2.
Proof.
  apply (empty_wallet_balance_is_zero
           unit unit (fun _ _ => BalanceExample.service [] 2)
           ToQuantity Add BalanceExample.query tt
           {| ListUnspentTokens := fun _ => Ok [] |}).
  - reflexivity.
  - reflexivity.
Defined.

(** * Further properties of the key codec *)

Module keysMore.
Import GoString GoStringFacts utf8Facts errors keys KeySpec keysFacts.
Local Open Scope nat_scope.

Arguments utf8.DecodeRuneInString : simpl never.

(** A successful [CreateCompositeKey] was given acceptable strings and
    answers the framed key. *)
Lemma create_ok_inv (objectType : string) (attributes : list string)
      (key : string) :
  CreateCompositeKey objectType attributes = (key, None) ->
  Acceptable objectType /\ Forall Acceptable attributes /\
  key = NUL ++ objectType ++ NUL ++ frame attributes.
Proof.
  intros H.
  destruct (create_cases objectType attributes)
    as [[F E]|(before & s & after & e & _ & _ & _ & E)];
    rewrite E in H; [|discriminate].
  injection H as <-. inversion F; subst.
  split; [assumption|]. split; [assumption | reflexivity].
Qed.

(** Two delimited texts that agree, agree part by part. *)
Lemma delimited_inj (a : string) :
  forall b x y,
    nozero a -> nozero b ->
    a ++ NUL ++ x = b ++ NUL ++ y -> a = b /\ x = y.
Proof.
  induction a as [|c a IH]; intros [|d b] x y Za Zb E; simpl in E.
  - injection E as ->. now split.
  - injection E as <- _. now destruct Zb.
  - injection E as -> _. now destruct Za.
  - injection E as -> E. destruct Za as [_ Za], Zb as [_ Zb].
    destruct (IH b x y Za Zb E) as [-> ->]. now split.
Qed.

Lemma frame_app (a b : list string) :
  frame (a ++ b)%list = frame a ++ frame b.
Proof.
  induction a as [|x a IH]; [reflexivity|].
  cbn [List.app frame]. rewrite IH. now rewrite !app_assoc.
Qed.

Lemma prefix_inv (a : string) :
  forall b, prefix a b = true -> exists r, b = a ++ r.
Proof.
  induction a as [|c a IH]; intros b H; [now exists b|].
  destruct b as [|d b]; [discriminate|]. simpl in H.
  destruct (ascii_dec c d) as [->|]; [|discriminate].
  destruct (IH b H) as [r ->]. now exists r.
Qed.

Lemma nozero_get (s : string) :
  nozero s -> forall i, get i s <> Some zero.
Proof.
  induction s as [|c t IH]; intros Z i; [now destruct i|].
  destruct Z as [C Z]. destruct i as [|i]; simpl.
  - congruence.
  - now apply IH.
Qed.

(** Text without a zero byte holds no complete component. *)
Lemma pieces_tail (tail : string) :
  forall cur, nozero tail -> pieces cur tail = [].
Proof.
  induction tail as [|c t IH]; intros cur Z; [reflexivity|].
  destruct Z as [C Z]. cbn [pieces].
  destruct (byte c =? 0)%N eqn:E.
  - exfalso. apply C, byte_zero. now apply N.eqb_eq.
  - now apply IH.
Qed.

Lemma pieces_frame_tail (attributes : list string) (tail : string) :
  Forall nozero attributes -> nozero tail ->
  pieces "" (frame attributes ++ tail) = attributes.
Proof.
  intros F T. induction F as [|a l Z _ IH]; [now apply pieces_tail|].
  cbn [frame]. rewrite !app_assoc.
  rewrite pieces_nozero by exact Z. simpl. now rewrite IH.
Qed.

(** Whatever the text, the components collected from it hold no zero
    byte, and the text is these components, each with its delimiter,
    then a rest without zero byte. *)
Lemma pieces_decompose (rest : string) :
  forall cur,
    nozero cur ->
    Forall nozero (pieces cur rest) /\
    exists tail,
      nozero tail /\ cur ++ rest = frame (pieces cur rest) ++ tail.
Proof.
  induction rest as [|c t IH]; intros cur Z.
  - split; [constructor|]. exists cur. split; [exact Z|].
    simpl. now rewrite app_empty_r.
  - cbn [pieces]. destruct (byte c =? 0)%N eqn:E.
    + apply N.eqb_eq, byte_zero in E. subst c.
      destruct (IH "" I) as [F (tail & T & D)]. split; [now constructor|].
      exists tail. split; [exact T|].
      cbn [frame]. simpl in D. rewrite D at 1.
      now rewrite !app_assoc.
    + assert (C : c <> zero).
      { intros ->. now rewrite (proj2 (byte_zero zero) eq_refl) in E. }
      destruct (IH (cur ++ String c ""))
        as [F (tail & T & D)].
      { apply nozero_app. split; [exact Z | now split]. }
      split; [exact F|]. exists tail. split; [exact T|].
      rewrite <- D. now rewrite app_assoc.
Qed.

(** The components of a key that was built are the strings it was
    built from. *)
Lemma created_components (objectType : string) (attributes : list string)
      (key : string) :
  CreateCompositeKey objectType attributes = (key, None) ->
  components_of key = objectType :: attributes.
Proof.
  intros H. destruct (create_ok_inv _ _ _ H) as (Ao & Aa & ->).
  now apply components_frame.
Qed.

Lemma FormatUint10_inj (i j : N) :
  strconv.FormatUint10 i = strconv.FormatUint10 j -> i = j.
Proof.
  intros E. pose proof (FormatUint10_reads_back i) as Hi.
  rewrite E, FormatUint10_reads_back in Hi. congruence.
Qed.

(** Over an ASCII prefix the two loops on the runes only advance. *)
Lemma valid_from_plain (p : string) :
  forall t,
    plain p ->
    utf8.valid_from (String.length (p ++ t)) (p ++ t)
    = utf8.valid_from (String.length t) t.
Proof.
  induction p as [|c p IH]; intros t P; [reflexivity|].
  destruct P as [[P0 P1] P]. cbn [append String.length utf8.valid_from].
  rewrite decode_ascii by exact P1.
  assert (E : (byte c =? utf8.RuneError)%N = false)
    by (apply N.eqb_neq; unfold utf8.RuneError; lia).
  rewrite E. cbn [andb]. change (drop 1 (String c (p ++ t))) with (p ++ t).
  now apply IH.
Qed.

Lemma validate_loop_plain (p : string) :
  forall t index,
    plain p ->
    validate_loop
      (utf8.range_from (String.length (p ++ t)) (p ++ t) index)
    = validate_loop
        (utf8.range_from (String.length t) t (index + String.length p)).
Proof.
  induction p as [|c p IH]; intros t index P.
  - simpl. now rewrite Nat.add_0_r.
  - destruct P as [[P0 P1] P].
    cbn [append String.length utf8.range_from].
    rewrite decode_ascii by exact P1. cbn [validate_loop].
    unfold minUnicodeRuneValue, MaxUnicodeRuneValue, utf8.MaxRune.
    assert (E0 : (byte c =? 0)%N = false) by (apply N.eqb_neq; lia).
    assert (E1 : (byte c =? 0x10FFFF)%N = false) by (apply N.eqb_neq; lia).
    rewrite E0, E1. cbn [orb].
    change (drop 1 (String c (p ++ t))) with (p ++ t).
    rewrite IH by exact P. f_equal. f_equal. lia.
Qed.

End keysMore.

Import keysMore.

(** Every byte of a string given in full is ASCII and not NUL, by
    evaluation. *)
Ltac plain_literal := cbn [plain]; repeat split.

(** X1: [CreateCompositeKey] never refuses ASCII text without NUL: for an
    object type and attributes made of bytes 0x01 to 0x7F only it answers
    the framed key and the nil error. *)
Theorem ascii_keys_are_built (objectType : string)
        (attributes : list string) :
  plain objectType ->
  Forall plain attributes ->
  CreateCompositeKey objectType attributes
  = (NUL ++ objectType ++ NUL ++ frame attributes, None).
Proof.
  intros Po Pa. apply create_frame.
  - now apply validate_None, plain_validate.
  - eapply Forall_impl; [|exact Pa].
    intros a P. now apply validate_None, plain_validate.
Qed.

Lemma ascii_keys_are_built_witness :
  plain "ztoken" /\ Forall plain ["token_request"; "tx-42"] /\
  CreateCompositeKey "ztoken" ["token_request"; "tx-42"]
  = (NUL ++ "ztoken" ++ NUL ++ frame ["token_request"; "tx-42"], None).
Proof.
  assert (Po : plain "ztoken") by plain_literal.
  assert (Pa : Forall plain ["token_request"; "tx-42"])
    by (repeat (apply Forall_cons; [plain_literal|]); apply Forall_nil).
  split; [exact Po|]. split; [exact Pa|].
  exact (ascii_keys_are_built "ztoken" ["token_request"; "tx-42"] Po Pa).
Defined.

(** X2: a zero byte anywhere in the object type or in an attribute makes
    [CreateCompositeKey] fail with the empty key, whether the byte is
    the encoding of U+0000 or part of invalid text. *)
Theorem zero_byte_is_refused (objectType : string)
        (attributes : list string) (s : string) (i : nat) :
  In s (objectType :: attributes) ->
  get i s = Some zero ->
  exists e, CreateCompositeKey objectType attributes = ("", Some e).
Proof.
  intros I G.
  destruct (create_cases objectType attributes)
    as [[F E]|(before & t & after & e & _ & _ & _ & E)].
  - exfalso. rewrite Forall_forall in F.
    exact (nozero_get s (Acceptable_nozero s (F s I)) i G).
  - now exists e.
Qed.

Lemma zero_byte_is_refused_witness :
  In (String "a" (String zero "b")) ["ztoken"; "tx1"; String "a" (String zero "b")]
  /\ get 1 (String "a" (String zero "b")) = Some zero
  /\ exists e,
      CreateCompositeKey "ztoken" ["tx1"; String "a" (String zero "b")]
      = ("", Some e).
Proof.
  assert (I : In (String "a" (String zero "b"))
                 ["ztoken"; "tx1"; String "a" (String zero "b")])
    by (simpl; auto).
  assert (G : get 1 (String "a" (String zero "b")) = Some zero)
    by reflexivity.
  split; [exact I|]. split; [exact G|].
  exact (zero_byte_is_refused "ztoken"
           ["tx1"; String "a" (String zero "b")] _ 1 I G).
Defined.

(** X3: [CreateCompositeKey] is injective where it succeeds: two calls
    that answer the same key were given the same object type and the
    same attributes, whatever their number. *)
Theorem key_is_injective (objectType objectType' : string)
        (attributes attributes' : list string) (key : string) :
  CreateCompositeKey objectType attributes = (key, None) ->
  CreateCompositeKey objectType' attributes' = (key, None) ->
  objectType = objectType' /\ attributes = attributes'.
Proof.
  intros H H'.
  apply created_components in H. apply created_components in H'.
  rewrite H in H'. now injection H' as -> ->.
Qed.

Lemma key_is_injective_witness :
  CreateCompositeKey "ztoken" ["tx1"; "3"]
  = (fst (CreateTokenKey "tx1" 3), None) /\
  CreateCompositeKey "ztoken" ["tx1"; strconv.FormatUint10 3]
  = (fst (CreateTokenKey "tx1" 3), None) /\
  ("ztoken" = "ztoken" /\ ["tx1"; "3"] = ["tx1"; strconv.FormatUint10 3]).
Proof.
  assert (H : CreateCompositeKey "ztoken" ["tx1"; "3"]
              = (fst (CreateTokenKey "tx1" 3), None)) by reflexivity.
  assert (H' : CreateCompositeKey "ztoken" ["tx1"; strconv.FormatUint10 3]
               = (fst (CreateTokenKey "tx1" 3), None)) by reflexivity.
  split; [exact H|]. split; [exact H'|].
  exact (key_is_injective _ _ _ _ _ H H').
Defined.

(** X4: [SplitCompositeKey] answers an object type and attributes with no
    error exactly on the keys made of one first byte (any byte: it is
    not looked at), the object type, a zero byte, at least two
    attributes each followed by a zero byte, and a rest without zero
    byte (dropped); the strings it answers hold no zero byte. *)
Theorem split_succeeds_iff (key objectType : string)
        (attributes : list string) :
  SplitCompositeKey key = (objectType, attributes, None)
  <->
  2 <= length attributes /\
  nozero objectType /\ Forall nozero attributes /\
  exists c tail,
    nozero tail /\
    key = String c (objectType ++ NUL ++ frame attributes ++ tail).
Proof.
  rewrite split_cases. split.
  - destruct (Nat.ltb_spec (length (components_of key)) 3) as [L|L];
      [discriminate|].
    intros H. injection H as Hh Ht.
    destruct key as [|c t]; [simpl in L; lia|].
    unfold components_of in *. change (drop 1 (String c t)) with t in *.
    destruct (pieces_decompose t "" I) as [F (tail & T & D)].
    destruct (pieces "" t) as [|p l]; [simpl in L; lia|].
    simpl in Hh, Ht. subst p l. inversion F; subst.
    split; [simpl in L; lia|]. split; [assumption|]. split; [assumption|].
    exists c, tail. split; [exact T|].
    simpl in D. rewrite D. cbn [frame]. now rewrite !app_assoc.
  - intros (L & Zo & Za & c & tail & T & ->).
    unfold components_of.
    change (drop 1 (String c (objectType ++ NUL ++ frame attributes ++ tail)))
      with (objectType ++ NUL ++ frame attributes ++ tail).
    rewrite pieces_nozero by exact Zo. simpl "++" at 1.
    rewrite pieces_frame_tail by assumption. cbn [length hd tl].
    destruct (Nat.ltb_spec (S (length attributes)) 3); [lia | reflexivity].
Qed.

(** X5: the key of a list of attributes is a prefix of the key of any
    longer list that starts with it, under the same object type: the
    keys that extend a partial key are found under it. *)
Theorem prefix_scan_extends (objectType : string)
        (attributes more : list string) (key key' : string) :
  CreateCompositeKey objectType attributes = (key, None) ->
  CreateCompositeKey objectType (attributes ++ more) = (key', None) ->
  prefix key key' = true.
Proof.
  intros H H'.
  destruct (create_ok_inv _ _ _ H) as (_ & _ & ->).
  destruct (create_ok_inv _ _ _ H') as (_ & _ & ->).
  rewrite frame_app.
  rewrite <- (app_assoc NUL (frame attributes) (frame more)).
  rewrite <- (app_assoc objectType (NUL ++ frame attributes) (frame more)).
  rewrite <- (app_assoc NUL (objectType ++ NUL ++ frame attributes)
                        (frame more)).
  apply prefix_app.
Qed.

Lemma prefix_scan_extends_witness :
  CreateCompositeKey "ztoken" ["tx1"]
  = (NUL ++ "ztoken" ++ NUL ++ "tx1" ++ NUL, None) /\
  CreateCompositeKey "ztoken" (["tx1"] ++ ["3"])
  = (fst (CreateTokenKey "tx1" 3), None) /\
  prefix (NUL ++ "ztoken" ++ NUL ++ "tx1" ++ NUL)
         (fst (CreateTokenKey "tx1" 3)) = true.
Proof.
  assert (H : CreateCompositeKey "ztoken" ["tx1"]
              = (NUL ++ "ztoken" ++ NUL ++ "tx1" ++ NUL, None))
    by reflexivity.
  assert (H' : CreateCompositeKey "ztoken" (["tx1"] ++ ["3"])
               = (fst (CreateTokenKey "tx1" 3), None)) by reflexivity.
  split; [exact H|]. split; [exact H'|].
  exact (prefix_scan_extends "ztoken" ["tx1"] ["3"] _ _ H H').
Defined.

(** X6: the prefix namespace + objectType + delimiter of an acceptable
    object type is matched by the keys of that object type only: a key
    built under another object type does not start with it. *)
Theorem prefix_scan_is_exact (objectType objectType' : string)
        (attributes : list string) (key : string) :
  Acceptable objectType ->
  CreateCompositeKey objectType' attributes = (key, None) ->
  prefix (compositeKeyNamespace ++ objectType ++ delimiter) key = true ->
  objectType = objectType'.
Proof.
  intros Ao H P.
  destruct (create_ok_inv _ _ _ H) as (Ao' & _ & ->).
  apply prefix_inv in P. destruct P as [r E].
  unfold compositeKeyNamespace, delimiter in E.
  rewrite !app_assoc in E. simpl in E. injection E as E.
  symmetry in E.
  now destruct (delimited_inj objectType objectType' r (frame attributes)
                              (Acceptable_nozero _ Ao)
                              (Acceptable_nozero _ Ao') E).
Qed.

Lemma prefix_scan_is_exact_witness :
  Acceptable "ztoken" /\
  CreateCompositeKey "ztoken" ["tx1"; "3"]
  = (fst (CreateTokenKey "tx1" 3), None) /\
  prefix (compositeKeyNamespace ++ "ztoken" ++ delimiter)
         (fst (CreateTokenKey "tx1" 3)) = true /\
  "ztoken" = "ztoken".
Proof.
  assert (A : Acceptable "ztoken") by acceptable_literal.
  assert (H : CreateCompositeKey "ztoken" ["tx1"; "3"]
              = (fst (CreateTokenKey "tx1" 3), None)) by reflexivity.
  assert (P : prefix (compositeKeyNamespace ++ "ztoken" ++ delimiter)
                     (fst (CreateTokenKey "tx1" 3)) = true) by reflexivity.
  split; [exact A|]. split; [exact H|]. split; [exact P|].
  exact (prefix_scan_is_exact "ztoken" "ztoken" ["tx1"; "3"] _ A H P).
Defined.

(** A key of object type ["ztoken"] with a marker and one more
    attribute is built and splits back. *)
Lemma marker_key_splits (marker x : string) :
  Acceptable marker -> Acceptable x ->
  exists key,
    CreateCompositeKey TokenKeyPrefix [marker; x] = (key, None) /\
    components_of key = ["ztoken"; marker; x] /\
    SplitCompositeKey key = ("ztoken", [marker; x], None).
Proof.
  intros Am Ax.
  assert (Ha : Forall Acceptable [marker; x])
    by (apply Forall_cons; [exact Am|];
        apply Forall_cons; [exact Ax | apply Forall_nil]).
  exists (NUL ++ TokenKeyPrefix ++ NUL ++ frame [marker; x]).
  split; [apply create_frame; [exact Acceptable_TokenKeyPrefix | exact Ha]|].
  split; [apply components_frame; [exact Acceptable_TokenKeyPrefix | exact Ha]|].
  rewrite split_frame by (exact Acceptable_TokenKeyPrefix || exact Ha).
  reflexivity.
Qed.

Lemma Acceptable_SerialNumber : Acceptable SerialNumber.
Proof. acceptable_literal. Qed.

Lemma Acceptable_TokenRequestKeyPrefix : Acceptable TokenRequestKeyPrefix.
Proof. acceptable_literal. Qed.

Lemma Acceptable_IssueActionMetadata : Acceptable IssueActionMetadata.
Proof. acceptable_literal. Qed.

(** X7: for an acceptable argument, [CreateSNKey], [CreateTokenRequestKey]
    and [CreateIssueActionMetadataKey] build a key that
    [SplitCompositeKey] splits into the object type ["ztoken"] and the
    two attributes marker, argument, with the markers ["sn"],
    ["token_request"] and ["iam"]. *)
Theorem catalog_keys_split (x : string) :
  Acceptable x ->
  (exists key,
      CreateSNKey x = (key, None) /\
      SplitCompositeKey key = ("ztoken", ["sn"; x], None)) /\
  (exists key,
      CreateTokenRequestKey x = (key, None) /\
      SplitCompositeKey key = ("ztoken", ["token_request"; x], None)) /\
  (exists key,
      CreateIssueActionMetadataKey x = (key, None) /\
      SplitCompositeKey key = ("ztoken", ["iam"; x], None)).
Proof.
  intros Ax.
  destruct (marker_key_splits _ x Acceptable_SerialNumber Ax)
    as (k1 & C1 & _ & S1).
  destruct (marker_key_splits _ x Acceptable_TokenRequestKeyPrefix Ax)
    as (k2 & C2 & _ & S2).
  destruct (marker_key_splits _ x Acceptable_IssueActionMetadata Ax)
    as (k3 & C3 & _ & S3).
  split; [now exists k1|]. split; [now exists k2 | now exists k3].
Qed.

Lemma catalog_keys_split_witness :
  Acceptable "abc" /\
  ((exists key,
       CreateSNKey "abc" = (key, None) /\
       SplitCompositeKey key = ("ztoken", ["sn"; "abc"], None)) /\
   (exists key,
       CreateTokenRequestKey "abc" = (key, None) /\
       SplitCompositeKey key = ("ztoken", ["token_request"; "abc"], None)) /\
   (exists key,
       CreateIssueActionMetadataKey "abc" = (key, None) /\
       SplitCompositeKey key = ("ztoken", ["iam"; "abc"], None))).
Proof.
  assert (A : Acceptable "abc") by acceptable_literal.
  split; [exact A | exact (catalog_keys_split "abc" A)].
Defined.

(** Keys built with different attribute lists differ. *)
Lemma keys_differ (attributes attributes' : list string) (key : string) :
  attributes <> attributes' ->
  ~ (CreateCompositeKey TokenKeyPrefix attributes = (key, None) /\
     CreateCompositeKey TokenKeyPrefix attributes' = (key, None)).
Proof.
  intros N [H H']. apply N.
  apply created_components in H. apply created_components in H'.
  rewrite H in H'. now injection H' as ->.
Qed.

(** X8: the keys of the catalog are kept apart: for whatever arguments,
    [CreateSNKey], [CreateTokenRequestKey], [CreateIssueActionMetadataKey]
    and [CreateTransferActionMetadataKey] never build the same key, and
    none of them builds the key of [CreateSetupKey] or of
    [CreateSetupHashKey], which differ from each other. *)
Theorem catalog_keys_are_disjoint (a b key : string) :
  ~ (CreateSNKey a = (key, None) /\ CreateTokenRequestKey b = (key, None)) /\
  ~ (CreateSNKey a = (key, None)
     /\ CreateIssueActionMetadataKey b = (key, None)) /\
  ~ (CreateSNKey a = (key, None)
     /\ CreateTransferActionMetadataKey b = (key, None)) /\
  ~ (CreateTokenRequestKey a = (key, None)
     /\ CreateIssueActionMetadataKey b = (key, None)) /\
  ~ (CreateTokenRequestKey a = (key, None)
     /\ CreateTransferActionMetadataKey b = (key, None)) /\
  ~ (CreateIssueActionMetadataKey a = (key, None)
     /\ CreateTransferActionMetadataKey b = (key, None)) /\
  ~ (CreateSetupKey = (key, None) /\ CreateSetupHashKey = (key, None)) /\
  (forall marker,
      ~ (CreateSetupKey = (key, None)
         /\ CreateCompositeKey TokenKeyPrefix [marker; a] = (key, None)) /\
      ~ (CreateSetupHashKey = (key, None)
         /\ CreateCompositeKey TokenKeyPrefix [marker; a] = (key, None))).
Proof.
  repeat match goal with
         | |- _ /\ _ => split
         | |- forall _, _ => intros marker
         end;
    apply keys_differ; discriminate.
Qed.

(** Where token keys meet the catalog: the token key of the transaction
    identifier ["sn"] is the serial-number key of the rendered index. *)
Remark token_key_meets_serial_number_key (index : N) :
  CreateTokenKey "sn" index = CreateSNKey (strconv.FormatUint10 index).
Proof. reflexivity. Qed.

(** X9: [GetTransferMetadataSubKey] tells the keys of the catalog apart:
    on the key of [CreateSNKey], [CreateTokenRequestKey] or
    [CreateIssueActionMetadataKey] of an acceptable argument it answers
    the error of the missing transfer-action-metadata marker, and on the
    keys of [CreateSetupKey] and [CreateSetupHashKey] the wrapped error
    of the split. *)
Theorem only_transfer_keys_parse (x : string) :
  Acceptable x ->
  (forall key,
      CreateSNKey x = (key, None)
      \/ CreateTokenRequestKey x = (key, None)
      \/ CreateIssueActionMetadataKey x = (key, None) ->
      GetTransferMetadataSubKey key
      = ("", Some (New (NoTransferActionMetadataPrefix key)))) /\
  (forall key,
      CreateSetupKey = (key, None) \/ CreateSetupHashKey = (key, None) ->
      exists cause,
        GetTransferMetadataSubKey key
        = ("", Some (Wrap cause (FailedToSplit key)))).
Proof.
  intros Ax. split.
  - intros key H.
    assert (C : exists marker,
               components_of key = ["ztoken"; marker; x] /\
               (marker =? TransferActionMetadata)%string = false).
    { destruct H as [H|[H|H]]; apply created_components in H;
        eexists; (split; [exact H | reflexivity]). }
    destruct C as (marker & C & M).
    rewrite GetTransferMetadataSubKey_cases. cbv zeta. rewrite C.
    cbn [length hd tl nth Nat.ltb Nat.leb Nat.eqb negb].
    change ("ztoken" =? TokenKeyPrefix)%string with true.
    cbn [negb]. now rewrite M.
  - intros key H.
    rewrite GetTransferMetadataSubKey_cases. cbv zeta.
    destruct H as [H|H]; apply created_components in H; rewrite H;
      eexists; reflexivity.
Qed.

Lemma only_transfer_keys_parse_witness :
  Acceptable "abc" /\
  GetTransferMetadataSubKey (fst (CreateSNKey "abc"))
  = ("", Some (New (NoTransferActionMetadataPrefix
                      (fst (CreateSNKey "abc"))))).
Proof.
  assert (A : Acceptable "abc") by acceptable_literal.
  split; [exact A|].
  apply (proj1 (only_transfer_keys_parse "abc" A)).
  left. reflexivity.
Defined.

(** X10: an answer of [GetTransferMetadataSubKey] without error is sound
    up to the empty answer: the key has the components ["ztoken"],
    ["tam"] and the sub-key answered, or else the answer is the empty
    string and the key has three attributes or more. *)
Theorem subkey_answer_is_sound (k sub : string) :
  GetTransferMetadataSubKey k = (sub, None) ->
  components_of k = ["ztoken"; "tam"; sub]
  \/ (sub = "" /\ 4 <= length (components_of k)).
Proof.
  rewrite GetTransferMetadataSubKey_cases. cbv zeta.
  destruct (Nat.ltb_spec (length (components_of k)) 3) as [L|L];
    [discriminate|].
  destruct (components_of k) as [|p [|m [|x l]]];
    try (simpl in L; lia).
  cbn [tl hd nth length].
  destruct l as [|y l].
  - cbn [length Nat.eqb negb].
    destruct (String.eqb_spec p TokenKeyPrefix) as [->|]; [|discriminate].
    destruct (String.eqb_spec m TransferActionMetadata) as [->|];
      [|discriminate].
    cbn [negb]. intros H. injection H as <-. now left.
  - cbn [length Nat.eqb negb]. intros H. injection H as <-.
    right. split; [reflexivity | simpl; lia].
Qed.

Lemma subkey_answer_is_sound_witness :
  GetTransferMetadataSubKey
    (fst (CreateTransferActionMetadataKey "abc")) = ("abc", None) /\
  (components_of (fst (CreateTransferActionMetadataKey "abc"))
   = ["ztoken"; "tam"; "abc"]
   \/ ("abc" = "" /\
       4 <= length (components_of
                      (fst (CreateTransferActionMetadataKey "abc"))))).
Proof.
  assert (H : GetTransferMetadataSubKey
                (fst (CreateTransferActionMetadataKey "abc"))
              = ("abc", None)) by reflexivity.
  split; [exact H | exact (subkey_answer_is_sound _ _ H)].
Defined.

(** X12: [CreateTokenKey] is injective where it succeeds: the outputs of
    different transactions, and the outputs of one transaction at
    different indexes, get different keys. *)
Theorem token_key_is_injective (txID txID' : string) (index index' : N)
        (key : string) :
  CreateTokenKey txID index = (key, None) ->
  CreateTokenKey txID' index' = (key, None) ->
  txID = txID' /\ index = index'.
Proof.
  unfold CreateTokenKey. intros H H'.
  apply created_components in H. apply created_components in H'.
  rewrite H in H'. injection H' as -> E.
  split; [reflexivity | now apply FormatUint10_inj].
Qed.

Lemma token_key_is_injective_witness :
  CreateTokenKey "tx1" 3 = (fst (CreateTokenKey "tx1" 3), None) /\
  ("tx1" = "tx1" /\ 3%N = 3%N).
Proof.
  assert (H : CreateTokenKey "tx1" 3 = (fst (CreateTokenKey "tx1" 3), None))
    by reflexivity.
  split; [exact H | exact (token_key_is_injective _ _ _ _ _ H H)].
Defined.

(** The four bytes F4 8F BF BF decode to U+10FFFF. *)
Lemma decode_max_rune (t : string) :
  utf8.DecodeRuneInString
    (String "244" (String "143" (String "191" (String "191" t))))
  = (utf8.MaxRune, 4).
Proof. reflexivity. Qed.

Lemma valid_from_step (fuel : nat) (c : ascii) (t : string) :
  utf8.valid_from (S fuel) (String c t)
  = let (r, size) := utf8.DecodeRuneInString (String c t) in
    if (r =? utf8.RuneError)%N && (size =? 1) then false
    else utf8.valid_from fuel (drop size (String c t)).
Proof. reflexivity. Qed.

Lemma range_from_step (fuel : nat) (c : ascii) (t : string) (index : nat) :
  utf8.range_from (S fuel) (String c t) index
  = let (r, size) := utf8.DecodeRuneInString (String c t) in
    (index, r) :: utf8.range_from fuel (drop size (String c t))
                                  (index + size).
Proof. reflexivity. Qed.

(** X11: what [ValidateCompositeKeyAttribute] reports on ASCII text
    followed by a forbidden codepoint: when the text after the codepoint
    is valid UTF-8, the codepoint (U+0000, or U+10FFFF encoded as
    F4 8F BF BF) and the length of the ASCII text as its position;
    otherwise the whole string as not valid UTF-8. *)
Theorem forbidden_rune_is_located (p rest : string) :
  plain p ->
  ValidateCompositeKeyAttribute (p ++ NUL ++ rest)
  = (if utf8.ValidString rest
     then Some (New (ForbiddenRune 0 (String.length p)))
     else Some (New (NotValidUTF8 (p ++ NUL ++ rest))))
  /\
  ValidateCompositeKeyAttribute
    (p ++ String "244" (String "143" (String "191" (String "191" rest))))
  = (if utf8.ValidString rest
     then Some (New (ForbiddenRune 0x10FFFF (String.length p)))
     else Some (New (NotValidUTF8
                       (p ++ String "244"
                          (String "143"
                             (String "191" (String "191" rest))))))).
Proof.
  intros P. unfold ValidateCompositeKeyAttribute, utf8.ValidString, utf8.range.
  split.
  - rewrite valid_from_plain by exact P.
    rewrite validate_loop_plain by exact P.
    change (NUL ++ rest) with (String zero rest).
    change (String.length (String zero rest))
      with (S (String.length rest)).
    rewrite valid_from_step, range_from_step.
    rewrite decode_ascii by (vm_compute; reflexivity).
    change (drop 1 (String zero rest)) with rest.
    change ((byte zero =? utf8.RuneError)%N && (1 =? 1)) with false.
    cbv iota.
    destruct (utf8.valid_from (String.length rest) rest); reflexivity.
  - rewrite valid_from_plain by exact P.
    rewrite validate_loop_plain by exact P.
    change (String.length
              (String "244" (String "143" (String "191"
                                                  (String "191" rest)))))
      with (S (S (S (S (String.length rest))))).
    rewrite valid_from_step, range_from_step, decode_max_rune.
    change (drop 4 (String "244" (String "143" (String "191"
                                                  (String "191" rest)))))
      with rest.
    change ((utf8.MaxRune =? utf8.RuneError)%N && (4 =? 1)) with false.
    cbv iota.
    rewrite !utf8Facts.valid_from_fuel by lia.
    destruct (utf8.valid_from (String.length rest) rest); reflexivity.
Qed.

Lemma forbidden_rune_is_located_witness :
  plain "tx" /\
  ValidateCompositeKeyAttribute ("tx" ++ NUL ++ "1")
  = Some (New (ForbiddenRune 0 2)) /\
  ValidateCompositeKeyAttribute
    ("tx" ++ String "244" (String "143" (String "191" (String "191" "1"))))
  = Some (New (ForbiddenRune 0x10FFFF 2)).
Proof.
  assert (P : plain "tx") by plain_literal.
  split; [exact P | exact (forbidden_rune_is_located "tx" "1" P)].
Defined.

(** * Further properties of the balance view *)

Module viewsMore.
Import token2 views.

Section SumLoop.
Variable Quantity : Type.
Variable ToQuantity : string -> N -> result Quantity.
Variable Add : Quantity -> Quantity -> Quantity.

(** On quantities that all parse the loop is the left fold of [Add]. *)
Lemma sum_loop_fold (tokens : list UnspentToken) :
  forall (qs : list Quantity) (precision : N) (sum : Quantity),
    Forall2 (fun tok q => ToQuantity (token2.Quantity tok) precision = Ok q)
            tokens qs ->
    sum_loop ToQuantity Add tokens precision sum
    = Ok (fold_left Add qs sum).
Proof.
  induction tokens as [|t l IH]; intros qs precision sum F;
    inversion F as [|? q ? qs' T F']; subst; [reflexivity|].
  simpl. rewrite T. now apply IH.
Qed.

(** The loop answers a sum exactly when every quantity parses. *)
Lemma sum_loop_ok_iff (tokens : list UnspentToken) (precision : N) :
  forall sum,
    (exists total,
        sum_loop ToQuantity Add tokens precision sum = Ok total)
    <-> forall tok, In tok tokens ->
                    exists q, ToQuantity (token2.Quantity tok) precision
                              = Ok q.
Proof.
  induction tokens as [|t l IH]; intros sum; simpl.
  - split; [intros _ ? [] | intros _; now exists sum].
  - destruct (ToQuantity (token2.Quantity t) precision) as [q|e] eqn:T.
    + rewrite IH. split.
      * intros H tok [<-|I]; [now exists q | now apply H].
      * intros H tok I. apply H. now right.
    + split; [intros [? ?]; discriminate|].
      intros H. destruct (H t (or_introl eq_refl)) as [q Q]. congruence.
Qed.

Hypothesis Add_assoc : forall a b c, Add (Add a b) c = Add a (Add b c).
Hypothesis Add_comm : forall a b, Add a b = Add b a.

(** With an associative and commutative [Add] the loop does not depend
    on the order of quantities that all parse. *)
Lemma sum_loop_permutation (tokens tokens' : list UnspentToken)
      (precision : N) :
  Permutation tokens tokens' ->
  (forall tok, In tok tokens ->
               exists q, ToQuantity (token2.Quantity tok) precision = Ok q) ->
  forall sum,
    sum_loop ToQuantity Add tokens precision sum
    = sum_loop ToQuantity Add tokens' precision sum.
Proof.
  induction 1 as [|x l l' P IH|x y l|l l' l'' P IH P' IH']; intros A sum.
  - reflexivity.
  - simpl. destruct (A x (or_introl eq_refl)) as [q ->].
    apply IH. intros tok I. apply A. now right.
  - simpl.
    destruct (A x (or_intror (or_introl eq_refl))) as [qx ->].
    destruct (A y (or_introl eq_refl)) as [qy ->].
    f_equal. rewrite !Add_assoc. f_equal. apply Add_comm.
  - rewrite IH by exact A. apply IH'.
    intros tok I. apply A. eapply Permutation_in; [|exact I].
    now apply Permutation_sym.
Qed.

End SumLoop.

End viewsMore.

Import viewsMore.

(** X13: when the wallet is found, its unspent tokens are listed and
    every quantity parses at the precision of the public parameters,
    [BalanceView.Call] answers no error and the balance of the queried
    type whose quantity is the rendering of zero with the parsed
    quantities added to it one after the other, in the order of the
    listing. *)
Theorem balance_is_sum_of_parsed
        (Context TMSID Quantity : Type)
        (GetManagementService : Context -> TMSID -> ManagementService)
        (NewZeroQuantity : N -> Quantity)
        (ToQuantity : string -> N -> result Quantity)
        (Add : Quantity -> Quantity -> Quantity)
        (Decimal : Quantity -> string)
        (b : BalanceQuery TMSID) (context : Context)
        (wallet : Wallet) (tokens : list UnspentToken)
        (qs : list Quantity) :
  OwnerWallet (GetManagementService context (QueryTMSID b)) (QueryWallet b)
  = Some wallet ->
  ListUnspentTokens wallet (QueryType b) = Ok tokens ->
  Forall2 (fun tok q =>
             ToQuantity (token2.Quantity tok)
                        (Precision
                           (GetManagementService context (QueryTMSID b)))
             = Ok q) tokens qs ->
  Call GetManagementService NewZeroQuantity ToQuantity Add Decimal b context
  = (Some {| BalanceType := QueryType b;
             BalanceQuantity :=
               Decimal
                 (fold_left Add qs
                    (NewZeroQuantity
                       (Precision
                          (GetManagementService context (QueryTMSID b))))) |},
     None).
Proof.
  intros W L F. unfold Call. rewrite W, L.
  now rewrite (sum_loop_fold Quantity ToQuantity Add tokens qs).
Qed.

Lemma balance_is_sum_of_parsed_witness :
  BalanceExample.balance
    [BalanceExample.usd "5.00"; BalanceExample.usd "2.50"] 2
  = (Some {| BalanceType := "USD";
             BalanceQuantity :=
               Decimal
                 (fold_left Add
                    [ {| precision := 2; magnitude := 500 |};
                      {| precision := 2; magnitude := 250 |} ]
                    (NewZeroQuantity 2)) |},
     None).
Proof.
  apply (balance_is_sum_of_parsed
           unit unit FixedQuantity
           (fun _ _ =>
              BalanceExample.service
                [BalanceExample.usd "5.00"; BalanceExample.usd "2.50"] 2)
           NewZeroQuantity ToQuantity Add Decimal
           BalanceExample.query tt
           {| ListUnspentTokens :=
                fun _ => Ok [BalanceExample.usd "5.00";
                             BalanceExample.usd "2.50"] |}
           [BalanceExample.usd "5.00"; BalanceExample.usd "2.50"]
           [ {| precision := 2; magnitude := 500 |};
             {| precision := 2; magnitude := 250 |} ]).
  - reflexivity.
  - reflexivity.
  - repeat constructor.
Defined.

(** X14: [BalanceView.Call] answers either a balance or an error, never
    both and never neither; it answers a balance exactly when the wallet
    is found, its unspent tokens are listed and every quantity parses.
    A wallet that is not found gives the error "wallet %s not found"
    with the name of the wallet, and an error of the listing is answered
    as it is. *)
Theorem balance_answered_iff
        (Context TMSID Quantity : Type)
        (GetManagementService : Context -> TMSID -> ManagementService)
        (NewZeroQuantity : N -> Quantity)
        (ToQuantity : string -> N -> result Quantity)
        (Add : Quantity -> Quantity -> Quantity)
        (Decimal : Quantity -> string)
        (b : BalanceQuery TMSID) (context : Context) :
  let tms := GetManagementService context (QueryTMSID b) in
  let answer :=
    Call GetManagementService NewZeroQuantity ToQuantity Add Decimal
         b context in
  (fst answer = None <-> snd answer <> None) /\
  (fst answer <> None
   <-> exists wallet tokens,
      OwnerWallet tms (QueryWallet b) = Some wallet /\
      ListUnspentTokens wallet (QueryType b) = Ok tokens /\
      forall tok, In tok tokens ->
                  exists q, ToQuantity (token2.Quantity tok) (Precision tms)
                            = Ok q) /\
  (OwnerWallet tms (QueryWallet b) = None ->
   answer = (None, Some (Errorf "wallet %s not found" [QueryWallet b]))) /\
  (forall wallet e,
      OwnerWallet tms (QueryWallet b) = Some wallet ->
      ListUnspentTokens wallet (QueryType b) = Err e ->
      answer = (None, Some e)).
Proof.
  intros tms answer. subst answer. unfold Call. fold tms.
  destruct (OwnerWallet tms (QueryWallet b)) as [wallet|] eqn:W.
  - destruct (ListUnspentTokens wallet (QueryType b)) as [tokens|e] eqn:L.
    + pose proof (sum_loop_ok_iff Quantity ToQuantity Add tokens
                                  (Precision tms)
                                  (NewZeroQuantity (Precision tms))) as S.
      destruct (sum_loop ToQuantity Add tokens (Precision tms)
                         (NewZeroQuantity (Precision tms)))
        as [total|e] eqn:E; cbn [fst snd].
      * split; [split; [discriminate | congruence]|].
        split; [|split; [discriminate | intros ? ? H; congruence]].
        split; [|discriminate]. intros _. exists wallet, tokens.
        split; [reflexivity|]. split; [exact L|].
        apply S. now exists total.
      * split; [split; [discriminate | reflexivity]|].
        split; [|split; [discriminate | intros ? ? H; congruence]].
        split; [congruence|].
        intros (w & ts & Hw & Hl & A). injection Hw as <-.
        rewrite L in Hl. injection Hl as <-.
        apply S in A. destruct A as [? ?]. discriminate.
    + cbn [fst snd]. split; [split; [discriminate | reflexivity]|].
      split; [|split; [discriminate|]].
      * split; [congruence|]. intros (w & ts & Hw & Hl & _).
        injection Hw as <-. congruence.
      * intros w e' Hw Hl. injection Hw as <-. congruence.
  - cbn [fst snd]. split; [split; [discriminate | reflexivity]|].
    split; [|split; [reflexivity | discriminate]].
    split; [congruence|]. intros (w & ts & Hw & _). discriminate.
Qed.

(** X15: with an [Add] that is associative and commutative, the answer
    of [BalanceView.Call] does not depend on the order in which the
    unspent tokens are listed, as long as every quantity parses: two
    contexts that differ only by a permutation of the listing get the
    same answer. *)
Theorem balance_ignores_order
        (Context TMSID Quantity : Type)
        (GetManagementService : Context -> TMSID -> ManagementService)
        (NewZeroQuantity : N -> Quantity)
        (ToQuantity : string -> N -> result Quantity)
        (Add : Quantity -> Quantity -> Quantity)
        (Decimal : Quantity -> string)
        (b : BalanceQuery TMSID) (context context' : Context)
        (wallet wallet' : Wallet) (tokens tokens' : list UnspentToken) :
  (forall x y z, Add (Add x y) z = Add x (Add y z)) ->
  (forall x y, Add x y = Add y x) ->
  OwnerWallet (GetManagementService context (QueryTMSID b)) (QueryWallet b)
  = Some wallet ->
  OwnerWallet (GetManagementService context' (QueryTMSID b)) (QueryWallet b)
  = Some wallet' ->
  Precision (GetManagementService context' (QueryTMSID b))
  = Precision (GetManagementService context (QueryTMSID b)) ->
  ListUnspentTokens wallet (QueryType b) = Ok tokens ->
  ListUnspentTokens wallet' (QueryType b) = Ok tokens' ->
  Permutation tokens tokens' ->
  (forall tok,
      In tok tokens ->
      exists q,
        ToQuantity (token2.Quantity tok)
                   (Precision (GetManagementService context (QueryTMSID b)))
        = Ok q) ->
  Call GetManagementService NewZeroQuantity ToQuantity Add Decimal b context
  = Call GetManagementService NewZeroQuantity ToQuantity Add Decimal
         b context'.
Proof.
  intros Aa Ac W W' P L L' Perm A. unfold Call.
  rewrite W, W', L, L', P.
  now rewrite (sum_loop_permutation Quantity ToQuantity Add Aa Ac
                                    tokens tokens' _ Perm A).
Qed.

Lemma balance_ignores_order_witness :
  let run :=
    Call (fun (listing : list UnspentToken) (_ : unit) =>
            BalanceExample.service listing 2)
         (fun _ => 0%N)
         (fun text precision =>
            match ToQuantity text precision with
            | Ok q => Ok (magnitude q)
            | Err e => Err e
            end)
         N.add strconv.FormatUint10 BalanceExample.query in
  run [BalanceExample.usd "5.00"; BalanceExample.usd "2.50"]
  = run [BalanceExample.usd "2.50"; BalanceExample.usd "5.00"].
Proof.
  intros run.
  apply (balance_ignores_order
           (list UnspentToken) unit N
           (fun listing _ => BalanceExample.service listing 2)
           (fun _ => 0%N)
           (fun text precision =>
              match ToQuantity text precision with
              | Ok q => Ok (magnitude q)
              | Err e => Err e
              end)
           N.add strconv.FormatUint10 BalanceExample.query
           [BalanceExample.usd "5.00"; BalanceExample.usd "2.50"]
           [BalanceExample.usd "2.50"; BalanceExample.usd "5.00"]
           {| ListUnspentTokens :=
                fun _ => Ok [BalanceExample.usd "5.00";
                             BalanceExample.usd "2.50"] |}
           {| ListUnspentTokens :=
                fun _ => Ok [BalanceExample.usd "2.50";
                             BalanceExample.usd "5.00"] |}
           [BalanceExample.usd "5.00"; BalanceExample.usd "2.50"]
           [BalanceExample.usd "2.50"; BalanceExample.usd "5.00"]).
  - intros x y z. lia.
  - intros x y. lia.
  - reflexivity.
  - reflexivity.
  - reflexivity.
  - reflexivity.
  - reflexivity.
  - apply perm_swap.
  - intros tok [<-|[<-|[]]]; eexists; reflexivity.
Defined.
